(** * wikidata-entity-linker: a shallow embedding of [app.py]

    The application reads a PDF, cuts its text into word windows, asks a
    keyphrase model for the top phrases of each window, counts the phrases,
    resolves each distinct phrase against the Wikidata entity search and, on
    request, fetches and flattens every statement of one entity.

    Layout of this file:
    - [Py]: the fragment of Python that [app.py] relies on (values parsed from
      JSON, truthiness, exceptions, [str.split], [str.join], [range], slices,
      [dict.get], subscripts, [collections.Counter]);
    - [App]: the functions and the top-level script of [app.py], one Rocq
      definition per Python definition, under the Python names;
    - the lemmas about them. *)

From Stdlib Require Import List String Ascii ZArith NArith Lia Bool PrimFloat.
From Stdlib Require Import Permutation.
Import ListNotations.

Local Open Scope string_scope.
Local Open Scope list_scope.
Local Open Scope Z_scope.

(* ===================================================================== *)
(** * The Python fragment                                                  *)
(* ===================================================================== *)

Module Py.

(** Exceptions the code can meet.  [RequestException] stands for every
    transport error of [requests.get]. *)
Inductive exn : Type :=
| ValueError
| TypeError
| KeyError
| IndexError
| AttributeError
| JSONDecodeError
| RequestException.

(** A computation that returns or raises. *)
Inductive res (A : Type) : Type :=
| Ok (a : A)
| Raise (e : exn).
Arguments Ok {A} a.
Arguments Raise {A} e.

Definition bind {A B} (m : res A) (k : A -> res B) : res B :=
  match m with
  | Ok a => k a
  | Raise e => Raise e
  end.

Notation "x <- m ;; k" := (bind m (fun x => k))
  (at level 61, m at next level, right associativity).

(** Values as [json.loads] builds them.  A [dict] keeps its items in insertion
    order; [PDict] lists them in that order, one item per key. *)
#[warnings="-register-all"]
Inductive pyval : Type :=
| PNone
| PBool (b : bool)
| PInt (z : Z)
| PFloat (f : float)
| PStr (s : string)
| PList (l : list pyval)
| PDict (d : list (string * pyval)).

(** [bool(v)]. *)
Definition truthy (v : pyval) : bool :=
  match v with
  | PNone => false
  | PBool b => b
  | PInt z => negb (z =? 0)
  | PFloat f => negb (PrimFloat.eqb f 0%float)
  | PStr s => negb (String.eqb s "")
  | PList l => match l with [] => false | _ :: _ => true end
  | PDict d => match d with [] => false | _ :: _ => true end
  end.

(** ** [dict.get] and subscripts *)

Fixpoint assoc {V} (k : string) (d : list (string * V)) : option V :=
  match d with
  | [] => None
  | (k', v) :: d' => if String.eqb k k' then Some v else assoc k d'
  end.

(** [v.get(k, dflt)]: only a dict has the method. *)
Definition get (v : pyval) (k : string) (dflt : pyval) : res pyval :=
  match v with
  | PDict d => Ok (match assoc k d with Some x => x | None => dflt end)
  | _ => Raise AttributeError
  end.

(** [l[i]] on a list, negative indices counting from the end. *)
Definition list_item {A} (l : list A) (i : Z) : res A :=
  let len := Z.of_nat (List.length l) in
  let j := if i <? 0 then i + len else i in
  if (j <? 0) || (len <=? j) then Raise IndexError
  else match nth_error l (Z.to_nat j) with
       | Some x => Ok x
       | None => Raise IndexError
       end.

Definition string_of_ascii (c : ascii) : string := String c "".

(** [s[i]] on a string: the one-character string at [i]. *)
Definition str_item (s : string) (i : Z) : res string :=
  list_item (map string_of_ascii (list_ascii_of_string s)) i.

(** [v[k]] with a string key. *)
Definition getitem_str (v : pyval) (k : string) : res pyval :=
  match v with
  | PDict d => match assoc k d with Some x => Ok x | None => Raise KeyError end
  | _ => Raise TypeError
  end.

(** [v[i]] with an integer index.  The keys of a parsed JSON object are
    strings, so an integer key is never found. *)
Definition getitem_int (v : pyval) (i : Z) : res pyval :=
  match v with
  | PList l => list_item l i
  | PStr s => s' <- str_item s i ;; Ok (PStr s')
  | PDict _ => Raise KeyError
  | _ => Raise TypeError
  end.

(** [for x in v]: the items the loop visits. *)
Definition iter (v : pyval) : res (list pyval) :=
  match v with
  | PList l => Ok l
  | PStr s => Ok (map (fun c => PStr (string_of_ascii c)) (list_ascii_of_string s))
  | PDict d => Ok (map (fun kv => PStr (fst kv)) d)
  | _ => Raise TypeError
  end.

(** ** Strings

    A text is a [string] whose characters are the code points below 256. *)

(** [c.isspace()] on those code points: TAB..CR, FS..US, SPACE, NEL, NBSP. *)
Definition isspace (c : ascii) : bool :=
  let n := N_of_ascii c in
  (((9 <=? n) && (n <=? 13)) || ((28 <=? n) && (n <=? 32))
   || (n =? 133) || (n =? 160))%N.

Definition flush (cur : string) : list string :=
  match cur with
  | EmptyString => []
  | _ => [cur]
  end.

(** [s.split()]: the maximal runs of non-space characters, in order.  [cur] is
    the run being read. *)
Fixpoint split_from (cur s : string) : list string :=
  match s with
  | EmptyString => flush cur
  | String c s' =>
      if isspace c then flush cur ++ split_from "" s'
      else split_from (cur ++ string_of_ascii c)%string s'
  end.

Definition split (s : string) : list string := split_from "" s.

(** [sep.join(ws)]. *)
Definition join (sep : string) (ws : list string) : string :=
  String.concat sep ws.

(** [s.split(sep)] for a one-character separator: never empty, the pieces
    between the separators, empty pieces kept. *)
Fixpoint split_sep (sep : ascii) (s : string) : list string :=
  match s with
  | EmptyString => [""]
  | String c s' =>
      if Ascii.eqb c sep then "" :: split_sep sep s'
      else match split_sep sep s' with
           | w :: ws => String c w :: ws
           | [] => [string_of_ascii c]
           end
  end.

(** ** [range] and slices *)

Definition range_len (lo hi step : Z) : Z :=
  if 0 <? step then (if lo <? hi then 1 + (hi - 1 - lo) / step else 0)
  else if step <? 0 then (if hi <? lo then 1 + (lo - 1 - hi) / (- step) else 0)
  else 0.

(** [range(lo, hi, step)], as the list a comprehension walks. *)
Definition range (lo hi step : Z) : res (list Z) :=
  if step =? 0 then Raise ValueError
  else Ok (map (fun k => lo + Z.of_nat k * step)
               (seq 0 (Z.to_nat (range_len lo hi step)))).

Definition clamp_index (len i : Z) : Z :=
  if i <? 0 then Z.max 0 (i + len) else Z.min i len.

(** [l[i:j]]. *)
Definition slice {A} (l : list A) (i j : Z) : list A :=
  let len := Z.of_nat (List.length l) in
  let lo := clamp_index len i in
  let hi := clamp_index len j in
  firstn (Z.to_nat (hi - lo)) (skipn (Z.to_nat lo) l).

(** ** [collections.Counter]

    A Counter is a dict: its items come in the order the keys were first
    seen. *)
Definition counter : Type := list (string * Z).

Fixpoint counter_incr (k : string) (c : counter) : counter :=
  match c with
  | [] => [(k, 1)]
  | (k', n) :: c' =>
      if String.eqb k k' then (k', n + 1) :: c'
      else (k', n) :: counter_incr k c'
  end.

(** [Counter(xs)]: one increment per element, left to right. *)
Definition Counter (xs : list string) : counter :=
  fold_left (fun c k => counter_incr k c) xs [].

(** [c[k]]: a missing key counts zero. *)
Definition counter_get (c : counter) (k : string) : Z :=
  match assoc k c with
  | Some n => n
  | None => 0
  end.

Definition keys {V} (d : list (string * V)) : list string := map fst d.

End Py.

Import Py.

(* ===================================================================== *)
(** * [app.py]                                                             *)
(* ===================================================================== *)

Module App.

(** ** Text chunker (lines 13-18) *)

(** A page of the reader is what its [extract_text()] gives: a string or
    [None]. *)
Definition page : Type := option string.

(** [page.extract_text() or ""]. *)
Definition text_or_empty (p : page) : string :=
  match p with
  | Some s => if String.eqb s "" then "" else s
  | None => ""
  end.

(** Line 15: the page texts joined by one space. *)
Definition pdf_text (pages : list page) : string :=
  join " " (map text_or_empty pages).

Definition extract_text_from_pdf (pages : list page) (chunk_size : Z)
  : res (list string) :=
  let text := pdf_text pages in
  let words := split text in
  starts <- range 0 (Z.of_nat (List.length words)) chunk_size ;;
  Ok (map (fun i => join " " (slice words i (i + chunk_size))) starts).

(** ** Keyphrase extractor (lines 20-26)

    The pretrained model is a collaborator: [kw_model] is its
    [extract_keywords(text, keyphrase_ngram_range=(1, 3), top_n=top_n)],
    a list of phrases with their scores. *)
Definition keybert : Type := string -> Z -> list (string * float).

Definition extract_entities_keybert (kw_model : keybert) (text : string)
  (top_n : Z) : list string :=
  map fst (kw_model text top_n).

(** ** The network

    The two GET requests of the program.  The URL, the headers and the other
    parameters are constants of the source; a request is known by what
    varies. *)
Inductive request : Type :=
| SearchEntities (search : string) (limit : Z)
    (* GET https://www.wikidata.org/w/api.php
       action=wbsearchentities language=en format=json *)
| Sparql (qid : pyval) (lang : string).
    (* GET https://query.wikidata.org/sparql format=json, the query text of
       lines 58-88 for this entity and language *)

(** What [requests.get] returns: the status and what [r.json()] gives,
    [None] when it raises. *)
Record response : Type := {
  status_code : Z;
  json : option pyval
}.

(** The remote services: the answer to a request, given the requests sent
    before it; [Raise] is a transport error. *)
Definition network : Type := list request -> request -> res response.

(** Code that talks to the network: it reads and extends the log of the
    requests sent so far. *)
Definition io (A : Type) : Type := list request -> res A * list request.

Definition ret {A} (a : A) : io A := fun log => (Ok a, log).

Definition lift {A} (m : res A) : io A := fun log => (m, log).

Definition io_bind {A B} (m : io A) (k : A -> io B) : io B :=
  fun log =>
    match m log with
    | (Ok a, log') => k a log'
    | (Raise e, log') => (Raise e, log')
    end.

Notation "x <~ m ;; k" := (io_bind m (fun x => k))
  (at level 61, m at next level, right associativity).

Definition requests_get (net : network) (rq : request) : io response :=
  fun log => (net log rq, log ++ [rq]).

(** [r.json()]. *)
Definition r_json (r : response) : res pyval :=
  match json r with
  | Some data => Ok data
  | None => Raise JSONDecodeError
  end.

(** ** Entity resolver (lines 29-53)

    The two [print] calls write to the console only and are left out. *)
Definition search_wikidata (net : network) (query : string) (limit : Z)
  : io (option (pyval * pyval)) :=
  r <~ requests_get net (SearchEntities query limit) ;;
  if negb (status_code r =? 200) then ret None
  else
    match r_json r with
    | Raise _ => ret None
    | Ok data =>
        lift (found <- get data "search" PNone ;;
              if truthy found then
                s1 <- getitem_str data "search" ;;
                m1 <- getitem_int s1 0 ;;
                id <- getitem_str m1 "id" ;;
                s2 <- getitem_str data "search" ;;
                m2 <- getitem_int s2 0 ;;
                label <- getitem_str m2 "label" ;;
                Ok (Some (id, label))
              else Ok None)
    end.

(** ** Statement fetcher (lines 56-104) *)

(** *** The rank label of the query (lines 78-80)

    The remote endpoint evaluates the query; this is its [BIND] expression,
    with SPARQL's [=] on RDF terms and [IF]. *)
Inductive term : Type :=
| Iri (iri : string)
| Literal (lexical datatype_or_lang : string)
| BlankNode (label : string).

Definition wikibase (name : string) : term :=
  Iri ("http://wikiba.se/ontology#" ++ name)%string.

Definition term_eqb (a b : term) : bool :=
  match a, b with
  | Iri x, Iri y => String.eqb x y
  | Literal x t, Literal y u => String.eqb x y && String.eqb t u
  | BlankNode x, BlankNode y => String.eqb x y
  | _, _ => false
  end.

(** [a = b] on RDF terms: an error ([None]) on two different literals. *)
Definition rdfterm_equal (a b : term) : option bool :=
  if term_eqb a b then Some true
  else match a, b with
       | Literal _ _, Literal _ _ => None
       | _, _ => Some false
       end.

(** [IF(c, a, b)]: an error in the condition is an error. *)
Definition sparql_if {A} (c : option bool) (a b : option A) : option A :=
  match c with
  | Some true => a
  | Some false => b
  | None => None
  end.

Definition statementRankLabel (statementRank : term) : option string :=
  sparql_if (rdfterm_equal statementRank (wikibase "NormalRank"))
    (Some "Normal")
    (sparql_if (rdfterm_equal statementRank (wikibase "PreferredRank"))
       (Some "Preferred")
       (sparql_if (rdfterm_equal statementRank (wikibase "DeprecatedRank"))
          (Some "Deprecated")
          (Some "Unknown"))).

(** *** Flattening (lines 91-104) *)

Module StatementRow.
Record t : Type := {
  property_id : pyval;
  property : pyval;
  value : pyval;
  qualifier : pyval;
  qualifier_value : pyval;
  unit : pyval;
  rank : pyval
}.
End StatementRow.

(** [b.get(var, {}).get("value", dflt)]. *)
Definition binding_value (b : pyval) (var : string) (dflt : pyval)
  : res pyval :=
  d <- get b var (PDict []) ;;
  get d "value" dflt.

(** Line 94: [prop_uri.split("/")[-1] if prop_uri else None]. *)
Definition prop_code_of (prop_uri : pyval) : res pyval :=
  if truthy prop_uri then
    match prop_uri with
    | PStr s => w <- list_item (split_sep "/" s) (-1) ;; Ok (PStr w)
    | _ => Raise AttributeError
    end
  else Ok PNone.

(** The body of the loop: the row of one binding. *)
Definition statement_row (b : pyval) : res StatementRow.t :=
  prop_uri <- binding_value b "property" (PStr "") ;;
  prop_code <- prop_code_of prop_uri ;;
  property <- binding_value b "propertyLabel" PNone ;;
  label <- get b "statementValueLabel" (PDict []) ;;
  raw <- binding_value b "statementValue" PNone ;;
  value <- get label "value" raw ;;
  qualifier <- binding_value b "qualifierPropertyLabel" PNone ;;
  qualifier_value <- binding_value b "qualifierValueLabel" PNone ;;
  unit <- binding_value b "unitOfMeasureLabel" PNone ;;
  rank <- binding_value b "statementRankLabel" PNone ;;
  Ok {| StatementRow.property_id := prop_code;
        StatementRow.property := property;
        StatementRow.value := value;
        StatementRow.qualifier := qualifier;
        StatementRow.qualifier_value := qualifier_value;
        StatementRow.unit := unit;
        StatementRow.rank := rank |}.

(** [rows.append(...)] for each binding, in order; the first error ends the
    loop. *)
Fixpoint statement_rows (bs : list pyval) : res (list StatementRow.t) :=
  match bs with
  | [] => Ok []
  | b :: bs' =>
      row <- statement_row b ;;
      rows <- statement_rows bs' ;;
      Ok (row :: rows)
  end.

Definition get_all_statements (net : network) (qid : pyval) (lang : string)
  : io (list StatementRow.t) :=
  r <~ requests_get net (Sparql qid lang) ;;
  lift (data <- r_json r ;;
        results <- getitem_str data "results" ;;
        bindings <- getitem_str results "bindings" ;;
        bs <- iter bindings ;;
        statement_rows bs).

(** ** Session state and helpers (lines 112-123) *)

Module ResultRow.
Record t : Type := {
  keyword : string;
  count : Z;
  wikidata_label : pyval;
  qid : pyval
}.
End ResultRow.

Record session_state : Type := {
  selected_qid : pyval;
  results : list ResultRow.t
}.

(** Lines 113-116. *)
Definition initial_session : session_state :=
  {| selected_qid := PNone; results := [] |}.

Definition select_qid (qid : pyval) (st : session_state) : session_state :=
  {| selected_qid := qid; results := results st |}.

Definition go_back (st : session_state) : session_state :=
  {| selected_qid := PNone; results := results st |}.

(** ** The page *)

Inductive notice : Type :=
| Processing            (* st.info: Processing... *)
| ChunksExtracted (n : Z)
| Found (n_keywords n_unique : Z)
| NoMatches             (* st.warning: No Wikidata matches found. *)
| NoKeywords            (* st.warning: No keywords were found in the document. *)
| NoProperties.         (* st.warning: No properties found for this entity. *)

Inductive element : Type :=
| Notice (n : notice)
| MatchesTable (rows : list ResultRow.t)
| DetailHeader (qid : pyval)
| BackButton
| StatementTable (rows : list StatementRow.t).

(** ** A processing run (lines 128-168) *)

(** Lines 134-136. *)
Definition collect_keywords (kw_model : keybert) (chunks : list string)
  : list string :=
  flat_map (fun chunk => extract_entities_keybert kw_model chunk 5) chunks.

(** Lines 148-158, over the items of [counts] that are left.  The progress
    bar is advisory and is removed at line 160. *)
Fixpoint resolve_loop (net : network) (items : list (string * Z))
  (results : list ResultRow.t) : io (list ResultRow.t) :=
  match items with
  | [] => ret results
  | (ent, count) :: items' =>
      wd_result <~ search_wikidata net ent 1 ;;
      resolve_loop net items'
        match wd_result with
        | Some (qid, wd_label) =>
            results ++ [{| ResultRow.keyword := ent;
                           ResultRow.count := count;
                           ResultRow.wikidata_label := wd_label;
                           ResultRow.qid := qid |}]
        | None => results
        end
  end.

Definition nonempty {A} (l : list A) : bool :=
  match l with
  | [] => false
  | _ :: _ => true
  end.

Definition processing_run (kw_model : keybert) (net : network)
  (uploaded_file : list page) (st : session_state)
  : io (session_state * list element) :=
  chunks <~ lift (extract_text_from_pdf uploaded_file 500) ;;
  let shown := [Notice Processing;
                Notice (ChunksExtracted (Z.of_nat (List.length chunks)))] in
  let all_entities := collect_keywords kw_model chunks in
  if nonempty all_entities then
    let counts := Counter all_entities in
    let shown := shown ++ [Notice (Found (Z.of_nat (List.length all_entities))
                                         (Z.of_nat (List.length counts)))] in
    results <~ resolve_loop net counts [] ;;
    if nonempty results then
      ret ({| selected_qid := PNone; results := results |}, shown)
    else
      ret (st, shown ++ [Notice NoMatches])
  else
    ret (st, shown ++ [Notice NoKeywords]).

(** ** The two screens (lines 171-210) *)

(** Line 171. *)
Definition shows_matches (st : session_state) : bool :=
  nonempty (results st) && negb (truthy (selected_qid st)).

(** Line 198. *)
Definition shows_detail (st : session_state) : bool :=
  truthy (selected_qid st).

Definition render (net : network) (st : session_state) : io (list element) :=
  let matches :=
    if shows_matches st then [MatchesTable (results st)] else [] in
  if shows_detail st then
    let qid := selected_qid st in
    props <~ get_all_statements net qid "en" ;;
    ret (matches ++ [DetailHeader qid; BackButton]
           ++ (if nonempty props then [StatementTable props]
               else [Notice NoProperties]))
  else ret matches.

(** ** One run of the script

    The framework runs the whole script after each user action, after the
    [on_click] callback of the widget that was used.  An exception ends the
    script; what was stored in the session before it stays. *)
Definition script (kw_model : keybert) (net : network)
  (uploaded_file : option (list page)) (start_processing : bool)
  (st : session_state) (log : list request)
  : session_state * res (list element) * list request :=
  let run :=
    match uploaded_file, start_processing with
    | Some pages, true => processing_run kw_model net pages st
    | _, _ => ret (st, [])
    end in
  match run log with
  | (Raise e, log1) => (st, Raise e, log1)
  | (Ok (st1, shown), log1) =>
      match render net st1 log1 with
      | (Raise e, log2) => (st1, Raise e, log2)
      | (Ok page, log2) => (st1, Ok (shown ++ page), log2)
      end
  end.

Inductive action : Type :=
| StartProcessing       (* the button of line 127 *)
| QueryProps (qid : pyval)  (* a button of line 190, with its row's qid *)
| Back.                 (* the button of line 202 *)

Definition handle (kw_model : keybert) (net : network)
  (uploaded_file : option (list page)) (a : action) (st : session_state)
  (log : list request)
  : session_state * res (list element) * list request :=
  match a with
  | StartProcessing => script kw_model net uploaded_file true st log
  | QueryProps qid => script kw_model net uploaded_file false (select_qid qid st) log
  | Back => script kw_model net uploaded_file false (go_back st) log
  end.

End App.

Import App.

(* ===================================================================== *)
(** * Vocabulary of the statements                                         *)
(* ===================================================================== *)

(** No character of [s] is white space. *)
Fixpoint nospace (s : string) : bool :=
  match s with
  | EmptyString => true
  | String c s' => negb (isspace c) && nospace s'
  end.

(** A word: what [split] produces. *)
Definition is_word (w : string) : Prop := w <> "" /\ nospace w = true.

(** No character of [s] is a slash. *)
Fixpoint noslash (s : string) : bool :=
  match s with
  | EmptyString => true
  | String c s' => negb (Ascii.eqb c "/") && noslash s'
  end.

(** What the table shows of a row: the keyword and its count. *)
Definition keyword_count (row : ResultRow.t) : string * Z :=
  (ResultRow.keyword row, ResultRow.count row).

(** The phrase [p] is in the list [L]. *)
Definition contains (p : string) (L : list string) : bool :=
  existsb (String.eqb p) L.


(** A lookup that failed: the status is not 200, or the body does not
    parse. *)
Definition lookup_failed (r : response) : Prop :=
  status_code r <> 200 \/ json r = None.

(** The request the resolution loop sends for an item of the counter. *)
Definition lookup_of (item : string * Z) : request :=
  SearchEntities (fst item) 1.

(** A bound variable of a SPARQL JSON result: an object whose "value" is a
    string. *)
Definition rdf_term_json (v : pyval) : Prop :=
  exists f s, v = PDict f /\ assoc "value" f = Some (PStr s).

(** A binding of a SPARQL JSON result: each of its variables is bound so. *)
Definition sparql_binding (d : list (string * pyval)) : Prop :=
  Forall (fun kv => rdf_term_json (snd kv)) d.

(** The value of a variable in a binding, [None] when it is not bound. *)
Definition bound_value (d : list (string * pyval)) (var : string) : pyval :=
  match assoc var d with
  | Some (PDict f) =>
      match assoc "value" f with
      | Some v => v
      | None => PNone
      end
  | _ => PNone
  end.

(** What follows the last slash of a URI, [None] for no URI or an empty
    one. *)
Definition last_segment (uri : pyval) : pyval :=
  match uri with
  | PStr s => if String.eqb s "" then PNone
              else PStr (last (split_sep "/" s) "")
  | _ => PNone
  end.

(** The screen the page shows. *)
Inductive screen : Type := RESULTS | DETAIL | BLANK.

Definition screen_of (st : session_state) : screen :=
  if shows_detail st then DETAIL
  else if shows_matches st then RESULTS
  else BLANK.

(** The row, if any, that the answer to the lookup of an item gives. *)
Definition row_of (item : string * Z) (wd : res (option (pyval * pyval)))
  : list ResultRow.t :=
  match wd with
  | Ok (Some (qid, label)) =>
      [{| ResultRow.keyword := fst item;
          ResultRow.count := snd item;
          ResultRow.wikidata_label := label;
          ResultRow.qid := qid |}]
  | _ => []
  end.

(** The rows of the items, each looked up after the items before it. *)
Fixpoint rows_of (net : network) (log : list request)
  (items : list (string * Z)) : list ResultRow.t :=
  match items with
  | [] => []
  | item :: rest =>
      row_of item (fst (search_wikidata net (fst item) 1 log))
        ++ rows_of net (log ++ [lookup_of item]) rest
  end.

(** The distinct elements of [xs], in the order of their first occurrence. *)
Fixpoint first_seen (xs : list string) : list string :=
  match xs with
  | [] => []
  | x :: xs' => x :: filter (fun y => negb (String.eqb y x)) (first_seen xs')
  end.

(** The sum of the counts of a counter. *)
Definition total (c : counter) : Z := fold_right Z.add 0 (map snd c).

(** The actions the page offers.  The start button is drawn when a file is
    uploaded (line 127); the "Query props" buttons are drawn with the table
    (lines 171-195); the back button is drawn in the detail view (line 202).
    The qid a "Query props" button hands to [select_qid] is read back from a
    pandas DataFrame of the stored rows, which may convert it: it is left
    free here. *)
Definition offered (uploaded_file : option (list page)) (a : action)
  (st : session_state) : Prop :=
  match a with
  | StartProcessing => uploaded_file <> None
  | QueryProps _ => shows_matches st = true
  | Back => shows_detail st = true
  end.

(** The sessions, with the requests sent so far, that a user gets to from a
    fresh session by actions the page offers. *)
Inductive reachable (kw_model : keybert) (net : network)
  : session_state -> list request -> Prop :=
| reach_fresh : reachable kw_model net initial_session []
| reach_action st log uploaded_file a :
    reachable kw_model net st log ->
    offered uploaded_file a st ->
    reachable kw_model net
      (fst (fst (handle kw_model net uploaded_file a st log)))
      (snd (handle kw_model net uploaded_file a st log)).

(** ** Sample data *)

Module Sample.

(** A search answer with no match. *)
Definition no_match : response :=
  {| status_code := 200; json := Some (PDict [("search", PList [])]) |}.

(** A search answer whose first match is Q937. *)
Definition einstein_match : response :=
  {| status_code := 200;
     json := Some (PDict [("search",
                           PList [PDict [("id", PStr "Q937");
                                         ("label", PStr "Albert Einstein")];
                                  PDict [("id", PStr "Q1");
                                         ("label", PStr "Universe")]])]) |}.

(** A service that always finds Q937 first. *)
Definition einstein_net : network := fun _ _ => Ok einstein_match.

(** An answer of a service that is down. *)
Definition unavailable : response :=
  {| status_code := 503; json := None |}.

(** A service that is down for the phrase "xyzzy" and finds Q937 first for
    every other phrase. *)
Definition flaky_net : network :=
  fun _ rq =>
    match rq with
    | SearchEntities query _ =>
        if String.eqb query "xyzzy" then Ok unavailable else Ok einstein_match
    | Sparql _ _ => Raise RequestException
    end.

(** A bound variable. *)
Definition bound (value : string) : pyval :=
  PDict [("type", PStr "literal"); ("value", PStr value)].

(** A binding of a statement without qualifier and without unit. *)
Definition plain_binding : list (string * pyval) :=
  [("property", bound "http://www.wikidata.org/entity/P31");
   ("propertyLabel", bound "instance of");
   ("statementValue", bound "http://www.wikidata.org/entity/Q5");
   ("statementValueLabel", bound "human");
   ("statementRankLabel", bound "Normal")].

(** A query answer for an entity without statements. *)
Definition no_statements : response :=
  {| status_code := 200;
     json := Some (PDict [("head", PDict [("vars", PList [])]);
                          ("results", PDict [("bindings", PList [])])]) |}.

(** A query endpoint that answers so. *)
Definition bare_net : network := fun _ _ => Ok no_statements.

(** A search answer whose first match has no label. *)
Definition unlabelled_match : response :=
  {| status_code := 200;
     json := Some (PDict [("search", PList [PDict [("id", PStr "Q42")]])]) |}.

(** A service that finds Q937 first, except for "xyzzy", whose first match
    has no label. *)
Definition unlabelled_net : network :=
  fun _ rq =>
    match rq with
    | SearchEntities query _ =>
        if String.eqb query "xyzzy" then Ok unlabelled_match
        else Ok einstein_match
    | Sparql _ _ => Raise RequestException
    end.

(** A model that finds two phrases in any text. *)
Definition two_phrases : keybert :=
  fun _ _ => [("einstein", 0.5%float); ("xyzzy", 0.25%float)].

(** The answer [no_statements] under an error status. *)
Definition no_statements_500 : response :=
  {| status_code := 500; json := json no_statements |}.





(** A service that never finds anything. *)
Definition empty_net : network := fun _ _ => Ok no_match.

(** A model that finds one phrase in any text. *)
Definition one_phrase : keybert :=
  fun _ _ => [("albert einstein", 0.5%float)].

(** The row of a keyword resolved to Q937. *)
Definition einstein_row_of (keyword : string) (count : Z) : ResultRow.t :=
  {| ResultRow.keyword := keyword;
     ResultRow.count := count;
     ResultRow.wikidata_label := PStr "Albert Einstein";
     ResultRow.qid := PStr "Q937" |}.

Definition einstein_row : ResultRow.t := einstein_row_of "albert einstein" 1.

(** A session in the detail view of Q937. *)
Definition in_detail : session_state :=
  {| selected_qid := PStr "Q937"; results := [einstein_row] |}.

End Sample.

(* ===================================================================== *)
(** * Strings: [split] and [join]                                          *)
(* ===================================================================== *)

Section SplitJoin.

Lemma append_empty_r (s : string) : (s ++ "")%string = s.
Proof. induction s as [|c s IH]; simpl; [reflexivity | now rewrite IH]. Qed.

Lemma append_assoc (a b c : string) :
  ((a ++ b) ++ c)%string = (a ++ (b ++ c))%string.
Proof. induction a as [|x a IH]; simpl; [reflexivity | now rewrite IH]. Qed.

Lemma nospace_append (a b : string) :
  nospace (a ++ b)%string = nospace a && nospace b.
Proof.
  induction a as [|c a IH]; simpl; [reflexivity|].
  now rewrite IH, andb_assoc.
Qed.

Lemma split_from_word (w cur s : string) :
  nospace w = true ->
  split_from cur (w ++ s)%string = split_from (cur ++ w)%string s.
Proof.
  revert cur. induction w as [|c w IH]; intros cur Hw; simpl.
  - now rewrite append_empty_r.
  - simpl in Hw. apply andb_prop in Hw as [Hc Hw].
    apply negb_true_iff in Hc. rewrite Hc.
    rewrite IH by assumption. unfold string_of_ascii.
    now rewrite append_assoc.
Qed.

Lemma flush_word (w : string) : w <> "" -> flush w = [w].
Proof. destruct w; [congruence | reflexivity]. Qed.

Lemma isspace_space : isspace " " = true.
Proof. reflexivity. Qed.

(** Joining words by a space and splitting again gives the words back. *)
Lemma split_join (ws : list string) :
  Forall is_word ws -> split (join " " ws) = ws.
Proof.
  unfold split, join. induction 1 as [|w ws [Hne Hns] Hws IH]; [reflexivity|].
  simpl. destruct ws as [|w' ws'].
  - rewrite <- (append_empty_r w) at 1.
    rewrite split_from_word by assumption. simpl. now apply flush_word.
  - rewrite split_from_word by assumption.
    cbn [append split_from]. rewrite isspace_space.
    simpl append. rewrite flush_word by assumption.
    simpl. f_equal. exact IH.
Qed.

Lemma split_from_words (s cur : string) :
  nospace cur = true -> Forall is_word (split_from cur s).
Proof.
  revert cur. induction s as [|c s IH]; intros cur Hcur; simpl.
  - destruct cur; simpl; constructor; [|constructor].
    split; [discriminate | assumption].
  - destruct (isspace c) eqn:Hc.
    + apply Forall_app. split; [|now apply IH].
      destruct cur; simpl; constructor; [|constructor].
      split; [discriminate | assumption].
    + apply IH. rewrite nospace_append, Hcur. simpl. now rewrite Hc.
Qed.

Lemma split_words (s : string) : Forall is_word (split s).
Proof. now apply split_from_words. Qed.

End SplitJoin.

(* ===================================================================== *)
(** * Slices and windows                                                   *)
(* ===================================================================== *)

Section Windows.

Context {A : Type}.
Implicit Types (l : list A) (c n k : nat).

(** With indices that are not negative a slice is a [skipn] then a
    [firstn]. *)
Lemma slice_nonneg l (i j : Z) :
  0 <= i -> 0 <= j ->
  slice l i j = firstn (Z.to_nat (j - i)) (skipn (Z.to_nat i) l).
Proof.
  intros Hi Hj. unfold slice, clamp_index.
  destruct (Z.ltb_spec i 0) as [?|_]; [lia|].
  destruct (Z.ltb_spec j 0) as [?|_]; [lia|].
  set (len := Z.of_nat (List.length l)).
  destruct (Z.le_gt_cases i len) as [Hle|Hgt].
  - rewrite (Z.min_l i len) by assumption.
    destruct (Z.le_gt_cases j len) as [Hjle|Hjgt].
    + now rewrite (Z.min_l j len).
    + rewrite (Z.min_r j len) by lia.
      rewrite !firstn_all2; [reflexivity| |];
        rewrite length_skipn; subst len; lia.
  - rewrite (Z.min_r i len) by lia.
    rewrite !skipn_all2 by (subst len; lia).
    now rewrite !firstn_nil.
Qed.

(** Windows of width [c] laid end to end cover the list. *)
Lemma concat_windows c n : forall l,
  (List.length l <= n * c)%nat ->
  List.concat (map (fun k => firstn c (skipn (k * c) l)) (seq 0 n)) = l.
Proof.
  induction n as [|n IH]; intros l Hlen.
  - destruct l; [reflexivity | simpl in Hlen; lia].
  - cbn [seq map List.concat]. rewrite <- seq_shift, map_map.
    rewrite (map_ext _ (fun k => firstn c (skipn (k * c) (skipn c l)))).
    + rewrite IH by (rewrite length_skipn; lia).
      apply firstn_skipn.
    + intros k. rewrite skipn_skipn. do 2 f_equal. lia.
Qed.

End Windows.

(* ===================================================================== *)
(** * The chunker                                                          *)
(* ===================================================================== *)

Section Chunker.

Lemma range_len_ceil (W C : Z) :
  0 < C -> 0 <= W -> range_len 0 W C = (W + C - 1) / C.
Proof.
  intros HC HW. unfold range_len.
  destruct (Z.ltb_spec 0 C) as [_|?]; [|lia].
  destruct (Z.ltb_spec 0 W) as [Hpos|Hz].
  - replace (W + C - 1) with (W - 1 - 0 + 1 * C) by lia.
    rewrite Z.div_add by lia. lia.
  - replace W with 0 by lia. symmetry. apply Z.div_small. lia.
Qed.

(** [(W + C - 1) / C] is the ceiling of [W / C]. *)
Lemma ceil_bounds (W C : Z) :
  0 < C ->
  C * ((W + C - 1) / C - 1) < W <= C * ((W + C - 1) / C).
Proof.
  intros HC.
  pose proof (Z.div_mod (W + C - 1) C ltac:(lia)) as Hdm.
  pose proof (Z.mod_pos_bound (W + C - 1) C HC) as Hr.
  lia.
Qed.

Lemma is_word_slice (words : list string) (i j : Z) :
  Forall is_word words -> Forall is_word (slice words i j).
Proof.
  intros H. unfold slice. cbv zeta.
  match goal with
  | |- Forall _ (firstn ?a (skipn ?b _)) => set (n := a); set (lo := b)
  end.
  rewrite <- (firstn_skipn lo words) in H.
  apply Forall_app in H as [_ H].
  rewrite <- (firstn_skipn n (skipn lo words)) in H.
  now apply Forall_app in H as [H _].
Qed.

(** The tokens of a chunk are the words it was joined from. *)
Lemma chunk_tokens (words : list string) (i j : Z) :
  Forall is_word words ->
  split (join " " (slice words i j)) = slice words i j.
Proof. intros H. apply split_join. now apply is_word_slice. Qed.

Lemma window_slice (words : list string) (C : Z) (k : nat) :
  0 < C ->
  slice words (0 + Z.of_nat k * C) (0 + Z.of_nat k * C + C)
  = firstn (Z.to_nat C) (skipn (k * Z.to_nat C) words).
Proof.
  intros HC. rewrite slice_nonneg by lia.
  f_equal; [f_equal; lia|]. f_equal. nia.
Qed.

End Chunker.

(** C2.  For a chunk size [C > 0] the chunker returns, and with [W] the number
    of words of the text: there are exactly ceil(W / C) chunks; every chunk
    has at most [C] tokens; the [k]-th chunk holds the words from [k * C] up
    to [k * C + C], so the chunks are consecutive and do not overlap; the
    tokens of all chunks, in order, are the words of the text; a text with no
    word gives no chunk. *)
Theorem chunker_partitions_words (pages : list page) (C : Z) :
  0 < C ->
  exists chunks,
    extract_text_from_pdf pages C = Ok chunks /\
    (let words := split (pdf_text pages) in
     let W := Z.of_nat (List.length words) in
     let n := Z.of_nat (List.length chunks) in
     n = (W + C - 1) / C /\
     C * (n - 1) < W <= C * n /\
     Forall (fun chunk => Z.of_nat (List.length (split chunk)) <= C) chunks /\
     (forall k, (k < List.length chunks)%nat ->
        split (nth k chunks "")
        = slice words (Z.of_nat k * C) (Z.of_nat k * C + C)) /\
     List.concat (map split chunks) = words /\
     (words = [] -> chunks = [])).
Proof.
  intros HC. unfold extract_text_from_pdf, range.
  set (words := split (pdf_text pages)).
  assert (Hwords : Forall is_word words) by apply split_words.
  destruct (Z.eqb_spec C 0) as [?|_]; [lia|].
  cbn [bind]. eexists. split; [reflexivity|]. cbv zeta.
  set (W := Z.of_nat (List.length words)).
  assert (HW : 0 <= W) by (subst W; lia).
  rewrite range_len_ceil by assumption.
  pose proof (ceil_bounds W C HC) as Hceil.
  assert (Hn : 0 <= (W + C - 1) / C) by (apply Z.div_pos; lia).
  set (q := (W + C - 1) / C) in *.
  rewrite !length_map, length_seq, Z2Nat.id by assumption.
  rewrite !map_map.
  split; [reflexivity|]. split; [exact Hceil|].
  split; [|split; [|split]].
  - apply Forall_forall. intros chunk Hin.
    apply in_map_iff in Hin as (k & <- & _).
    rewrite chunk_tokens, window_slice by assumption.
    pose proof (firstn_le_length (Z.to_nat C)
                  (skipn (k * Z.to_nat C) words)). lia.
  - intros k Hk.
    rewrite (nth_indep _ "" (join " " (slice words (0 + Z.of_nat 0 * C)
                                         (0 + Z.of_nat 0 * C + C))))
      by (now rewrite length_map, length_seq).
    rewrite (map_nth (fun k => join " " (slice words (0 + Z.of_nat k * C)
                                           (0 + Z.of_nat k * C + C)))).
    rewrite seq_nth by assumption.
    now rewrite chunk_tokens by assumption.
  - rewrite (map_ext _ (fun k => firstn (Z.to_nat C)
                                   (skipn (k * Z.to_nat C) words))).
    + apply concat_windows. subst W. nia.
    + intros k. rewrite chunk_tokens by assumption.
      now apply window_slice.
  - intros Hnil. replace q with 0; [reflexivity|].
    subst W. rewrite Hnil in Hceil. simpl in Hceil. nia.
Qed.

(** C2 at two pages, nine words and chunks of four words. *)
Lemma chunker_partitions_words_witness :
  0 < 4 /\
  exists chunks,
    extract_text_from_pdf
      [Some "alpha beta  gamma delta epsilon"; None; Some " zeta eta theta iota"]
      4 = Ok chunks /\
    Z.of_nat (List.length chunks) = 3.
Proof.
  split; [lia|].
  destruct (chunker_partitions_words
              [Some "alpha beta  gamma delta epsilon"; None;
               Some " zeta eta theta iota"] 4 ltac:(lia))
    as (chunks & Hrun & Hcount & _).
  exists chunks. split; [exact Hrun|]. rewrite Hcount. reflexivity.
Defined.

(* ===================================================================== *)
(** * The frequency aggregator                                             *)
(* ===================================================================== *)

Section Aggregator.

Implicit Types (c : counter) (k p : string) (xs : list string).

Lemma counter_get_cons k (n : Z) c p :
  counter_get ((k, n) :: c) p = if String.eqb p k then n else counter_get c p.
Proof. unfold counter_get. simpl. now destruct (String.eqb p k). Qed.

Lemma counter_get_incr k c p :
  counter_get (counter_incr k c) p
  = counter_get c p + (if String.eqb p k then 1 else 0).
Proof.
  induction c as [|[k' n] c IH]; simpl.
  - rewrite counter_get_cons. unfold counter_get. simpl.
    now destruct (String.eqb p k).
  - destruct (String.eqb_spec k k') as [->|Hne];
      rewrite !counter_get_cons.
    + destruct (String.eqb p k'); lia.
    + destruct (String.eqb_spec p k') as [->|_].
      * destruct (String.eqb_spec k' k) as [->|_]; [congruence | lia].
      * exact IH.
Qed.

Lemma keys_incr k c p :
  In p (keys (counter_incr k c)) <-> p = k \/ In p (keys c).
Proof.
  unfold keys. induction c as [|[k' n] c IH]; simpl.
  - intuition congruence.
  - destruct (String.eqb_spec k k') as [->|Hne]; simpl.
    + intuition congruence.
    + rewrite IH. intuition congruence.
Qed.


(** The loop of [Counter]: counts add up, keys accumulate, and no key comes
    twice. *)
Lemma fold_incr_get xs : forall c p,
  counter_get (fold_left (fun c k => counter_incr k c) xs c) p
  = counter_get c p + Z.of_nat (count_occ string_dec xs p).
Proof.
  induction xs as [|x xs IH]; intros c p; simpl; [lia|].
  rewrite IH, counter_get_incr.
  destruct (String.eqb_spec p x) as [Heq|Hne];
    destruct (string_dec x p) as [Heq'|Hne']; try congruence; lia.
Qed.

Lemma fold_incr_keys xs : forall c p,
  In p (keys (fold_left (fun c k => counter_incr k c) xs c))
  <-> In p xs \/ In p (keys c).
Proof.
  induction xs as [|x xs IH]; intros c p; simpl; [tauto|].
  rewrite IH, keys_incr. intuition congruence.
Qed.


Lemma Counter_get xs p :
  counter_get (Counter xs) p = Z.of_nat (count_occ string_dec xs p).
Proof. unfold Counter. now rewrite fold_incr_get. Qed.

Lemma Counter_keys xs p : In p (keys (Counter xs)) <-> In p xs.
Proof. unfold Counter. rewrite fold_incr_keys. simpl. tauto. Qed.


Lemma contains_In p (L : list string) : contains p L = true <-> In p L.
Proof.
  unfold contains. rewrite existsb_exists. split.
  - intros (x & Hin & Heq). apply String.eqb_eq in Heq. now subst.
  - intros Hin. exists p. split; [exact Hin | apply String.eqb_refl].
Qed.



(** Lines 134-136 build the concatenation of the per-chunk lists. *)
Lemma collect_keywords_concat (kw_model : keybert) (chunks : list string) :
  collect_keywords kw_model chunks
  = List.concat
      (map (fun chunk => extract_entities_keybert kw_model chunk 5) chunks).
Proof. unfold collect_keywords. apply flat_map_concat_map. Qed.



End Aggregator.

(* ===================================================================== *)
(** * The rank label                                                       *)
(* ===================================================================== *)

Section Rank.

Lemma term_eqb_eq (a b : term) : term_eqb a b = true <-> a = b.
Proof.
  destruct a, b; simpl; try (split; [discriminate | congruence]).
  - rewrite String.eqb_eq. split; congruence.
  - rewrite andb_true_iff, !String.eqb_eq.
    split; [intros [-> ->]; reflexivity | intros H; injection H; auto].
  - rewrite String.eqb_eq. split; congruence.
Qed.

(** Against an IRI the comparison never fails. *)
Lemma rdfterm_equal_wikibase (r : term) (name : string) :
  rdfterm_equal r (wikibase name) = Some (term_eqb r (wikibase name)).
Proof.
  unfold rdfterm_equal, wikibase.
  destruct (term_eqb r (Iri _)), r; reflexivity.
Qed.

(** C6.  The rank label is defined on every rank: the normal, preferred and
    deprecated ranks give "Normal", "Preferred" and "Deprecated", every other
    term gives "Unknown", and so each rank has exactly one of the four
    labels. *)
Theorem rank_label_total (r : term) :
  statementRankLabel (wikibase "NormalRank") = Some "Normal"
  /\ statementRankLabel (wikibase "PreferredRank") = Some "Preferred"
  /\ statementRankLabel (wikibase "DeprecatedRank") = Some "Deprecated"
  /\ (r <> wikibase "NormalRank" -> r <> wikibase "PreferredRank" ->
      r <> wikibase "DeprecatedRank" ->
      statementRankLabel r = Some "Unknown")
  /\ (exists l, statementRankLabel r = Some l
                /\ In l ["Normal"; "Preferred"; "Deprecated"; "Unknown"]).
Proof.
  repeat split; try reflexivity.
  - intros Hn Hp Hd. unfold statementRankLabel.
    rewrite !rdfterm_equal_wikibase.
    destruct (term_eqb r (wikibase "NormalRank")) eqn:E1;
      [apply term_eqb_eq in E1; contradiction|].
    destruct (term_eqb r (wikibase "PreferredRank")) eqn:E2;
      [apply term_eqb_eq in E2; contradiction|].
    destruct (term_eqb r (wikibase "DeprecatedRank")) eqn:E3;
      [apply term_eqb_eq in E3; contradiction|].
    reflexivity.
  - unfold statementRankLabel. rewrite !rdfterm_equal_wikibase.
    destruct (term_eqb r (wikibase "NormalRank"));
      [eexists; split; [reflexivity | simpl; tauto]|].
    destruct (term_eqb r (wikibase "PreferredRank"));
      [eexists; split; [reflexivity | simpl; tauto]|].
    destruct (term_eqb r (wikibase "DeprecatedRank"));
      eexists; (split; [reflexivity | simpl; tauto]).
Qed.

(** C6 at a rank the query does not know and at a literal. *)
Lemma rank_label_total_witness :
  statementRankLabel (wikibase "BestRank") = Some "Unknown"
  /\ statementRankLabel (Literal "Normal" "en") = Some "Unknown".
Proof.
  split.
  - apply (proj1 (proj2 (proj2 (proj2 (rank_label_total (wikibase "BestRank"))))));
      discriminate.
  - apply (proj1 (proj2 (proj2 (proj2 (rank_label_total (Literal "Normal" "en"))))));
      discriminate.
Defined.

End Rank.

(* ===================================================================== *)
(** * The interaction controller                                           *)
(* ===================================================================== *)

Section Controller.

Variables (kw_model : keybert) (net : network).

Lemma nonempty_true {A} (l : list A) : l <> [] -> nonempty l = true.
Proof. destruct l; [congruence | reflexivity]. Qed.

(** With the default chunk size the chunker always returns. *)
Lemma chunker_returns (pages : list page) :
  exists chunks, extract_text_from_pdf pages 500 = Ok chunks.
Proof. unfold extract_text_from_pdf, range. simpl. eauto. Qed.

(** Leaving the detail view renders the stored table and sends nothing. *)
Lemma handle_back (uploaded_file : option (list page)) (st : session_state)
  (log : list request) :
  handle kw_model net uploaded_file Back st log
  = (go_back st,
     Ok (if nonempty (results st) then [MatchesTable (results st)] else []),
     log).
Proof.
  unfold handle, script, render, shows_detail, shows_matches, go_back, ret.
  destruct uploaded_file; simpl; rewrite andb_true_r;
    destruct (nonempty (results st)); reflexivity.
Qed.

(** Whatever the page of the detail view does, the session it leaves is the
    one [select_qid] made. *)
Lemma handle_query_props (uploaded_file : option (list page))
  (st : session_state) (E : pyval) (log : list request) :
  fst (fst (handle kw_model net uploaded_file (QueryProps E) st log))
  = select_qid E st.
Proof.
  unfold handle, script, ret.
  destruct uploaded_file; simpl;
    destruct (render net (select_qid E st) log) as [[page|e] log2];
    reflexivity.
Qed.

(** C9.  [select_qid] and [go_back] change the selection only: the stored
    results are the same after entering the detail view, after leaving it and
    after both, and the page shown on the way back is the table of the stored
    results, rendered without any request. *)
Theorem detail_view_keeps_results (uploaded_file : option (list page))
  (st : session_state) (E : pyval) (log : list request) :
  results (select_qid E st) = results st
  /\ results (go_back st) = results st
  /\ results (go_back (select_qid E st)) = results st
  /\ results (fst (fst (handle kw_model net uploaded_file (QueryProps E) st log)))
     = results st
  /\ handle kw_model net uploaded_file Back (select_qid E st) log
     = (go_back st,
        Ok (if nonempty (results st) then [MatchesTable (results st)] else []),
        log).
Proof.
  repeat split; try reflexivity.
  - now rewrite handle_query_props.
  - now rewrite handle_back.
Qed.

(** What a run does once the lookups are over (lines 160-168). *)
Lemma processing_run_unfold (pages : list page) (st : session_state)
  (log log' : list request) (chunks : list string) (rs : list ResultRow.t) :
  extract_text_from_pdf pages 500 = Ok chunks ->
  collect_keywords kw_model chunks <> [] ->
  resolve_loop net (Counter (collect_keywords kw_model chunks)) [] log
  = (Ok rs, log') ->
  let shown :=
    [Notice Processing;
     Notice (ChunksExtracted (Z.of_nat (List.length chunks)));
     Notice (Found (Z.of_nat (List.length (collect_keywords kw_model chunks)))
               (Z.of_nat (List.length
                            (Counter (collect_keywords kw_model chunks)))))] in
  processing_run kw_model net pages st log
  = if nonempty rs
    then (Ok ({| selected_qid := PNone; results := rs |}, shown), log')
    else (Ok (st, shown ++ [Notice NoMatches]), log').
Proof.
  intros Hchunks Hkw Hloop shown.
  unfold processing_run, io_bind, lift. rewrite Hchunks.
  rewrite (nonempty_true _ Hkw), Hloop.
  destruct rs; reflexivity.
Qed.

(** C10.  A run that found keywords and resolved none of them returns the
    session it was given: the selection and the stored results are the old
    ones, the run adds the warning to the page, and the script leaves the
    same session behind. *)
Theorem unresolved_run_keeps_session (pages : list page) (st : session_state)
  (log log' : list request) (chunks : list string) :
  extract_text_from_pdf pages 500 = Ok chunks ->
  collect_keywords kw_model chunks <> [] ->
  resolve_loop net (Counter (collect_keywords kw_model chunks)) [] log
  = (Ok [], log') ->
  processing_run kw_model net pages st log
  = (Ok (st,
         [Notice Processing;
          Notice (ChunksExtracted (Z.of_nat (List.length chunks)));
          Notice (Found
                    (Z.of_nat (List.length (collect_keywords kw_model chunks)))
                    (Z.of_nat (List.length
                                 (Counter (collect_keywords kw_model chunks)))));
          Notice NoMatches]),
     log')
  /\ fst (fst (handle kw_model net (Some pages) StartProcessing st log)) = st.
Proof.
  intros Hchunks Hkw Hloop.
  pose proof (processing_run_unfold pages st log log' chunks [] Hchunks Hkw Hloop)
    as Hrun.
  simpl in Hrun. split; [exact Hrun|].
  unfold handle, script. rewrite Hrun.
  destruct (render net st log') as [[page|e] log2]; reflexivity.
Qed.

End Controller.

(** C10 in the detail view of Q937. *)
Lemma unresolved_run_keeps_session_witness :
  extract_text_from_pdf [Some "Albert Einstein"] 500 = Ok ["Albert Einstein"]
  /\ collect_keywords Sample.one_phrase ["Albert Einstein"] <> []
  /\ fst (fst (handle Sample.one_phrase Sample.empty_net
                 (Some [Some "Albert Einstein"]) StartProcessing
                 Sample.in_detail []))
     = Sample.in_detail.
Proof.
  split; [reflexivity|]. split; [discriminate|].
  apply (unresolved_run_keeps_session Sample.one_phrase Sample.empty_net
           [Some "Albert Einstein"] Sample.in_detail []
           [SearchEntities "albert einstein" 1] ["Albert Einstein"]);
    [reflexivity | discriminate | reflexivity].
Defined.

(* ===================================================================== *)
(** * The entity resolver                                                  *)
(* ===================================================================== *)

Section Resolver.

Variable net : network.

Implicit Types (log : list request) (results : list ResultRow.t)
  (items : list (string * Z)).

(** The resolver sends one request, whatever comes back. *)
Lemma search_wikidata_log (query : string) (limit : Z) log :
  snd (search_wikidata net query limit log)
  = log ++ [SearchEntities query limit].
Proof.
  unfold search_wikidata, io_bind, requests_get, ret, lift.
  destruct (net log _) as [r|e]; [|reflexivity].
  destruct (negb _); [reflexivity|].
  destruct (r_json r); reflexivity.
Qed.

Lemma search_wikidata_failed (query : string) (limit : Z) log (r : response) :
  net log (SearchEntities query limit) = Ok r ->
  lookup_failed r ->
  search_wikidata net query limit log
  = (Ok None, log ++ [SearchEntities query limit]).
Proof.
  intros Hnet Hfail.
  unfold search_wikidata, io_bind, requests_get, ret. rewrite Hnet.
  destruct (Z.eqb_spec (status_code r) 200) as [H200|_]; [|reflexivity].
  destruct Hfail as [Hst|Hjson]; [contradiction|].
  simpl. unfold r_json. now rewrite Hjson.
Qed.

(** C4.  When the service answers 200 with a JSON object: if its "search"
    entry is a list whose first element is a match with an "id" and a
    "label", the resolver returns that id and that label, whatever follows
    in the list; if the entry is missing, or an empty list (or any other
    falsy value), it returns [None].  One request is sent either way. *)
Theorem resolver_first_match (query : string) (limit : Z) log
  (r : response) (d : list (string * pyval)) :
  net log (SearchEntities query limit) = Ok r ->
  status_code r = 200 ->
  json r = Some (PDict d) ->
  (forall m ms id label,
     assoc "search" d = Some (PList (PDict m :: ms)) ->
     assoc "id" m = Some id ->
     assoc "label" m = Some label ->
     search_wikidata net query limit log
     = (Ok (Some (id, label)), log ++ [SearchEntities query limit]))
  /\ (assoc "search" d = Some (PList []) ->
      search_wikidata net query limit log
      = (Ok None, log ++ [SearchEntities query limit]))
  /\ (assoc "search" d = None ->
      search_wikidata net query limit log
      = (Ok None, log ++ [SearchEntities query limit]))
  /\ (forall v, assoc "search" d = Some v -> truthy v = false ->
      search_wikidata net query limit log
      = (Ok None, log ++ [SearchEntities query limit])).
Proof.
  intros Hnet H200 Hjson.
  assert (Hrun : search_wikidata net query limit log
                 = lift (found <- get (PDict d) "search" PNone ;;
                         if truthy found then
                           s1 <- getitem_str (PDict d) "search" ;;
                           m1 <- getitem_int s1 0 ;;
                           id <- getitem_str m1 "id" ;;
                           s2 <- getitem_str (PDict d) "search" ;;
                           m2 <- getitem_int s2 0 ;;
                           label <- getitem_str m2 "label" ;;
                           Ok (Some (id, label))
                         else Ok None)
                     (log ++ [SearchEntities query limit])).
  { unfold search_wikidata, io_bind, requests_get. rewrite Hnet, H200.
    unfold r_json. now rewrite Hjson. }
  rewrite Hrun. unfold lift. simpl.
  repeat split.
  - intros m ms id label Hs Hid Hlabel. rewrite Hs. simpl.
    now rewrite Hid, Hlabel.
  - intros Hs. now rewrite Hs.
  - intros Hs. now rewrite Hs.
  - intros v Hs Hv. now rewrite Hs, Hv.
Qed.

(** ** The resolution loop *)

Lemma resolve_loop_cons (ent : string) (count : Z) items results log :
  resolve_loop net ((ent, count) :: items) results log
  = match search_wikidata net ent 1 log with
    | (Ok (Some (qid, wd_label)), log1) =>
        resolve_loop net items
          (results ++ [{| ResultRow.keyword := ent;
                          ResultRow.count := count;
                          ResultRow.wikidata_label := wd_label;
                          ResultRow.qid := qid |}]) log1
    | (Ok None, log1) => resolve_loop net items results log1
    | (Raise e, log1) => (Raise e, log1)
    end.
Proof.
  cbn [resolve_loop]. unfold io_bind.
  destruct (search_wikidata net ent 1 log) as [[[[qid lbl]|]|e] log1];
    reflexivity.
Qed.

(** The loop over a list cut in two is the loop over the first part, then,
    unless it raised, the loop over the second. *)
Lemma resolve_loop_app items1 : forall items2 results log,
  resolve_loop net (items1 ++ items2) results log
  = match resolve_loop net items1 results log with
    | (Ok results1, log1) => resolve_loop net items2 results1 log1
    | (Raise e, log1) => (Raise e, log1)
    end.
Proof.
  induction items1 as [|[ent count] items1 IH]; intros items2 results log.
  - reflexivity.
  - rewrite <- app_comm_cons, !resolve_loop_cons.
    destruct (search_wikidata net ent 1 log) as [[[[qid lbl]|]|e] log1];
      [apply IH | apply IH | reflexivity].
Qed.

(** A loop that returns has sent one request per item, in order. *)
Lemma resolve_loop_log items : forall results log out log',
  resolve_loop net items results log = (Ok out, log') ->
  log' = log ++ map lookup_of items.
Proof.
  induction items as [|[ent count] items IH]; intros results log out log' Hrun.
  - cbn in Hrun. injection Hrun as _ <-. now rewrite app_nil_r.
  - rewrite resolve_loop_cons in Hrun.
    pose proof (search_wikidata_log ent 1 log) as Hlog.
    destruct (search_wikidata net ent 1 log) as [[[[qid lbl]|]|e] log1];
      simpl in Hlog; subst log1; try discriminate;
      apply IH in Hrun; rewrite Hrun, <- app_assoc; reflexivity.
Qed.

(** Every row of the table was there before the loop or is the row of one
    of its items. *)
Lemma resolve_loop_keywords items : forall results log out log',
  resolve_loop net items results log = (Ok out, log') ->
  forall row, In row out ->
    In row results \/ In (ResultRow.keyword row) (keys items).
Proof.
  induction items as [|[ent count] items IH];
    intros results log out log' Hrun row Hin.
  - cbn in Hrun. injection Hrun as <- _. now left.
  - rewrite resolve_loop_cons in Hrun.
    destruct (search_wikidata net ent 1 log) as [[[[qid lbl]|]|e] log1];
      try discriminate.
    + destruct (IH _ _ _ _ Hrun row Hin) as [Hold|Hkey].
      * apply in_app_or in Hold as [Hold|[<-|[]]]; [now left|].
        right. now left.
      * right. now right.
    + destruct (IH _ _ _ _ Hrun row Hin) as [Hold|Hkey];
        [now left | right; now right].
Qed.

(** C5.  When the lookup of a keyword gets a status other than 200 or a
    body that does not parse, the resolver returns [None], as for a lookup
    without match, after its one request; the iteration of the loop adds no
    row and goes on with the remaining keywords; and in a loop over distinct
    keywords that returns, the keyword is in no row of the table and the
    requests sent are one per keyword, in order: nothing was sent twice. *)
Theorem failed_lookup_is_skipped (pre post : list (string * Z))
  (ent : string) (count : Z) results log (r : response) :
  net log (SearchEntities ent 1) = Ok r ->
  lookup_failed r ->
  search_wikidata net ent 1 log = (Ok None, log ++ [SearchEntities ent 1])
  /\ resolve_loop net ((ent, count) :: post) results log
     = resolve_loop net post results (log ++ [SearchEntities ent 1])
  /\ (forall log0 out log',
        log = log0 ++ map lookup_of pre ->
        NoDup (keys (pre ++ (ent, count) :: post)) ->
        resolve_loop net (pre ++ (ent, count) :: post) [] log0
        = (Ok out, log') ->
        ~ In ent (map ResultRow.keyword out)
        /\ log' = log0 ++ map lookup_of (pre ++ (ent, count) :: post)).
Proof.
  intros Hnet Hfail.
  pose proof (search_wikidata_failed ent 1 log r Hnet Hfail) as Hsearch.
  assert (Hstep : forall res,
            resolve_loop net ((ent, count) :: post) res log
            = resolve_loop net post res (log ++ [SearchEntities ent 1])).
  { intros res. now rewrite resolve_loop_cons, Hsearch. }
  split; [exact Hsearch|]. split; [apply Hstep|].
  intros log0 out log' Hlog Hnd Hrun.
  split; [|exact (resolve_loop_log _ _ _ _ _ Hrun)].
  rewrite resolve_loop_app in Hrun.
  destruct (resolve_loop net pre [] log0) as [[res1|e] log1] eqn:Hpre;
    [|discriminate].
  pose proof (resolve_loop_log _ _ _ _ _ Hpre) as Hlog1.
  rewrite <- Hlog in Hlog1. subst log1. rewrite Hstep in Hrun.
  unfold keys in Hnd. rewrite map_app in Hnd. simpl in Hnd.
  apply NoDup_remove_2 in Hnd.
  intros Hin. apply in_map_iff in Hin as (row & Hkey & Hin).
  apply Hnd, in_or_app.
  destruct (resolve_loop_keywords _ _ _ _ _ Hrun row Hin) as [Hold|Hpost].
  - destruct (resolve_loop_keywords _ _ _ _ _ Hpre row Hold) as [[]|Hin1].
    left. now rewrite <- Hkey.
  - right. now rewrite <- Hkey.
Qed.

End Resolver.

(** C4 on an answer with two matches: the first one is returned. *)
Lemma resolver_first_match_witness :
  Sample.einstein_net [] (SearchEntities "albert einstein" 1)
  = Ok Sample.einstein_match
  /\ search_wikidata Sample.einstein_net "albert einstein" 1 []
     = (Ok (Some (PStr "Q937", PStr "Albert Einstein")),
        [SearchEntities "albert einstein" 1]).
Proof.
  split; [reflexivity|].
  refine (proj1 (resolver_first_match Sample.einstein_net "albert einstein" 1
                   [] Sample.einstein_match _ _ _ _) _ _ _ _ _ _ _);
    reflexivity.
Defined.

(** C5 on three keywords, the service being down for the second. *)
Lemma failed_lookup_is_skipped_witness :
  lookup_failed Sample.unavailable
  /\ resolve_loop Sample.flaky_net
       [("albert einstein", 2); ("xyzzy", 1); ("relativity", 1)] [] []
     = (Ok [Sample.einstein_row_of "albert einstein" 2;
            Sample.einstein_row_of "relativity" 1],
        [SearchEntities "albert einstein" 1;
         SearchEntities "xyzzy" 1;
         SearchEntities "relativity" 1])
  /\ ~ In "xyzzy"
         (map ResultRow.keyword
            [Sample.einstein_row_of "albert einstein" 2;
             Sample.einstein_row_of "relativity" 1]).
Proof.
  assert (Hfail : lookup_failed Sample.unavailable) by (left; discriminate).
  split; [exact Hfail|]. split; [reflexivity|].
  refine (proj1 (proj2 (proj2
            (failed_lookup_is_skipped Sample.flaky_net
               [("albert einstein", 2)] [("relativity", 1)] "xyzzy" 1 []
               [SearchEntities "albert einstein" 1] Sample.unavailable
               _ Hfail)) [] _ _ _ _ _)).
  - reflexivity.
  - reflexivity.
  - repeat constructor; simpl; intuition discriminate.
  - reflexivity.
Defined.

(* ===================================================================== *)
(** * The statement fetcher                                                *)
(* ===================================================================== *)

Section Fetcher.

Lemma nth_error_last {A} (l : list A) (d : A) :
  l <> [] -> nth_error l (pred (List.length l)) = Some (last l d).
Proof.
  induction l as [|a l IH]; [congruence|]. intros _.
  destruct l as [|b l]; [reflexivity|].
  change (nth_error (b :: l) (pred (List.length (b :: l)))
          = Some (last (b :: l) d)).
  apply IH. discriminate.
Qed.

(** [l[-1]] is the last element of a list that has one. *)
Lemma list_item_last {A} (l : list A) (d : A) :
  l <> [] -> list_item l (-1) = Ok (last l d).
Proof.
  intros Hne. unfold list_item.
  assert (Hlen : 1 <= Z.of_nat (List.length l)).
  { destruct l; [congruence | simpl List.length; lia]. }
  change (-1 <? 0) with true. cbv iota.
  destruct (Z.ltb_spec (-1 + Z.of_nat (List.length l)) 0) as [?|_]; [lia|].
  destruct (Z.leb_spec (Z.of_nat (List.length l))
              (-1 + Z.of_nat (List.length l))) as [?|_]; [lia|].
  simpl orb. cbv iota.
  replace (Z.to_nat (-1 + Z.of_nat (List.length l)))
    with (pred (List.length l)) by lia.
  now rewrite (nth_error_last l d Hne).
Qed.

Lemma split_sep_nonempty (sep : ascii) (s : string) : split_sep sep s <> [].
Proof.
  destruct s as [|c s]; simpl; [discriminate|].
  destruct (Ascii.eqb c sep); [discriminate|].
  destruct (split_sep sep s); discriminate.
Qed.

Lemma prop_code_of_str (s : string) :
  prop_code_of (PStr s) = Ok (last_segment (PStr s)).
Proof.
  unfold prop_code_of, last_segment. simpl.
  destruct (String.eqb s ""); simpl; [reflexivity|].
  now rewrite (list_item_last _ "" (split_sep_nonempty "/" s)).
Qed.

Lemma assoc_In {V} (k : string) (d : list (string * V)) (v : V) :
  assoc k d = Some v -> In (k, v) d.
Proof.
  induction d as [|[k' v'] d IH]; simpl; [discriminate|].
  destruct (String.eqb_spec k k') as [->|_].
  - intros [= ->]. now left.
  - intros H. right. now apply IH.
Qed.

Section Binding.

Variable d : list (string * pyval).
Hypothesis Hwf : sparql_binding d.

Lemma binding_lookup (var : string) (v : pyval) :
  assoc var d = Some v ->
  exists f s, v = PDict f /\ assoc "value" f = Some (PStr s).
Proof using Hwf.
  intros Hv. apply assoc_In in Hv.
  exact (proj1 (Forall_forall _ _) Hwf _ Hv).
Qed.

(** A bound variable has a string value. *)
Lemma bound_value_str (var : string) :
  assoc var d <> None -> exists s, bound_value d var = PStr s.
Proof using Hwf.
  unfold bound_value. destruct (assoc var d) as [v|] eqn:Hv; [|congruence].
  intros _. destruct (binding_lookup _ _ Hv) as (f & s & -> & Hs).
  simpl. rewrite Hs. now exists s.
Qed.

Lemma bound_value_unbound (var : string) :
  assoc var d = None -> bound_value d var = PNone.
Proof. unfold bound_value. now intros ->. Qed.

(** [b.get(var, {}).get("value", dflt)] on a binding. *)
Lemma binding_value_wf (var : string) (dflt : pyval) :
  binding_value (PDict d) var dflt
  = Ok (match assoc var d with
        | Some _ => bound_value d var
        | None => dflt
        end).
Proof using Hwf.
  unfold binding_value, bound_value. simpl.
  destruct (assoc var d) as [v|] eqn:Hv; [|reflexivity].
  destruct (binding_lookup _ _ Hv) as (f & s & -> & Hs).
  simpl. now rewrite Hs.
Qed.

Lemma binding_value_none (var : string) :
  binding_value (PDict d) var PNone = Ok (bound_value d var).
Proof using Hwf.
  rewrite binding_value_wf.
  destruct (assoc var d) eqn:Hv; [reflexivity|].
  now rewrite bound_value_unbound.
Qed.

Lemma prop_code_wf :
  prop_code_of (match assoc "property" d with
                | Some _ => bound_value d "property"
                | None => PStr ""
                end)
  = Ok (last_segment (bound_value d "property")).
Proof using Hwf.
  destruct (assoc "property" d) as [v|] eqn:Hv.
  - destruct (bound_value_str "property") as (s & Hs); [congruence|].
    rewrite Hs. apply prop_code_of_str.
  - now rewrite bound_value_unbound.
Qed.

(** The value falls back to the raw value when no label is bound. *)
Lemma value_wf (raw : pyval) :
  get (match assoc "statementValueLabel" d with
       | Some label => label
       | None => PDict []
       end) "value" raw
  = Ok (match assoc "statementValueLabel" d with
        | Some _ => bound_value d "statementValueLabel"
        | None => raw
        end).
Proof using Hwf.
  unfold bound_value.
  destruct (assoc "statementValueLabel" d) as [v|] eqn:Hv; [|reflexivity].
  destruct (binding_lookup _ _ Hv) as (f & s & -> & Hs).
  cbn [get]. now rewrite Hs.
Qed.

End Binding.

(** C7.  A binding of a SPARQL JSON result is flattened without error into one
    row of seven fields: the property id is the last segment of the property
    URI, the value is the value label when one is bound and the raw statement
    value otherwise, and each other field is the value of its variable; a
    variable that is not bound gives [None] in its field, so a binding
    without qualifier variables has both qualifier fields [None], and the
    fields of the variables that are bound hold their strings. *)
Theorem statement_row_flattens (d : list (string * pyval)) :
  sparql_binding d ->
  exists row,
    statement_row (PDict d) = Ok row
    /\ StatementRow.property_id row = last_segment (bound_value d "property")
    /\ StatementRow.property row = bound_value d "propertyLabel"
    /\ StatementRow.value row
       = match assoc "statementValueLabel" d with
         | Some _ => bound_value d "statementValueLabel"
         | None => bound_value d "statementValue"
         end
    /\ StatementRow.qualifier row = bound_value d "qualifierPropertyLabel"
    /\ StatementRow.qualifier_value row = bound_value d "qualifierValueLabel"
    /\ StatementRow.unit row = bound_value d "unitOfMeasureLabel"
    /\ StatementRow.rank row = bound_value d "statementRankLabel"
    /\ (forall var, assoc var d = None -> bound_value d var = PNone)
    /\ (forall var, assoc var d <> None -> exists s, bound_value d var = PStr s)
    /\ (assoc "qualifierPropertyLabel" d = None ->
        assoc "qualifierValueLabel" d = None ->
        StatementRow.qualifier row = PNone
        /\ StatementRow.qualifier_value row = PNone)
    /\ (assoc "propertyLabel" d <> None ->
        assoc "statementValue" d <> None ->
        assoc "statementRankLabel" d <> None ->
        StatementRow.property row <> PNone
        /\ StatementRow.value row <> PNone
        /\ StatementRow.rank row <> PNone)
    /\ (forall s, bound_value d "property" = PStr s -> s <> "" ->
        StatementRow.property_id row <> PNone)
    /\ (assoc "unitOfMeasureLabel" d <> None ->
        StatementRow.unit row <> PNone).
Proof.
  intros Hwf. unfold statement_row.
  rewrite (binding_value_wf d Hwf "property"). cbn [bind].
  rewrite (prop_code_wf d Hwf). cbn [bind get].
  rewrite !(binding_value_none d Hwf). cbn [bind].
  rewrite (value_wf d Hwf). cbn [bind].
  eexists. split; [reflexivity|]. cbn [StatementRow.property_id
    StatementRow.property StatementRow.value StatementRow.qualifier
    StatementRow.qualifier_value StatementRow.unit StatementRow.rank].
  pose proof (bound_value_str d Hwf) as Hstr.
  pose proof (bound_value_unbound d) as Hnone.
  repeat match goal with |- _ /\ _ => split end; try reflexivity.
  - exact Hnone.
  - exact Hstr.
  - intros H1 H2. now rewrite !Hnone.
  - intros Hp Hv Hr.
    destruct (Hstr _ Hp) as (s1 & ->). destruct (Hstr _ Hr) as (s3 & ->).
    repeat split; try discriminate.
    destruct (assoc "statementValueLabel" d) eqn:Hl.
    + destruct (Hstr "statementValueLabel") as (s2 & ->);
        [congruence | discriminate].
    + destruct (Hstr _ Hv) as (s2 & ->). discriminate.
  - intros s Hs Hne. rewrite Hs. unfold last_segment.
    destruct (String.eqb_spec s ""); [contradiction | discriminate].
  - intros Hu. destruct (Hstr _ Hu) as (s & ->). discriminate.
Qed.

(** ** The fetcher *)

Lemma statement_rows_cons (b : pyval) (bs : list pyval) :
  statement_rows (b :: bs)
  = match statement_row b with
    | Ok row =>
        match statement_rows bs with
        | Ok rows => Ok (row :: rows)
        | Raise e => Raise e
        end
    | Raise e => Raise e
    end.
Proof.
  cbn [statement_rows]. destruct (statement_row b); [|reflexivity].
  cbn [bind]. now destruct (statement_rows bs).
Qed.














End Fetcher.

(** C7 on a binding with neither qualifier nor unit. *)
Lemma statement_row_flattens_witness :
  sparql_binding Sample.plain_binding
  /\ exists row,
       statement_row (PDict Sample.plain_binding) = Ok row
       /\ StatementRow.property_id row = PStr "P31"
       /\ StatementRow.value row = PStr "human"
       /\ StatementRow.qualifier row = PNone.
Proof.
  assert (Hwf : sparql_binding Sample.plain_binding).
  { repeat constructor; simpl; do 2 eexists; (split; reflexivity). }
  split; [exact Hwf|].
  destruct (statement_row_flattens Sample.plain_binding Hwf)
    as (row & Hrow & Hid & _ & Hvalue & Hq & _).
  exists row. repeat split; [exact Hrow | exact Hid | exact Hvalue | exact Hq].
Defined.



(* ===================================================================== *)
(** * More on the chunker                                                  *)
(* ===================================================================== *)

Section ChunkerEdges.

(** With a positive chunk size the chunks are the joined windows of the
    words. *)
Lemma chunker_windows (pages : list page) (C : Z) :
  0 < C ->
  extract_text_from_pdf pages C
  = Ok (map (fun k => join " " (firstn (Z.to_nat C)
                                  (skipn (k * Z.to_nat C)
                                     (split (pdf_text pages)))))
          (seq 0 (Z.to_nat
                    ((Z.of_nat (List.length (split (pdf_text pages))) + C - 1)
                     / C)))).
Proof.
  intros HC. unfold extract_text_from_pdf, range.
  destruct (Z.eqb_spec C 0) as [?|_]; [lia|].
  cbn [bind]. rewrite range_len_ceil by lia. rewrite map_map.
  f_equal. apply map_ext. intros k. now rewrite window_slice.
Qed.

(** X1.  A chunk size of zero makes the chunker raise [ValueError]; a
    negative chunk size makes it return no chunk at all, whatever the
    text. *)
Theorem chunker_bad_size (pages : list page) (C : Z) :
  (C = 0 -> extract_text_from_pdf pages C = Raise ValueError)
  /\ (C < 0 -> extract_text_from_pdf pages C = Ok []).
Proof.
  split; intros HC; unfold extract_text_from_pdf, range.
  - now subst C.
  - destruct (Z.eqb_spec C 0) as [?|_]; [lia|]. unfold range_len.
    destruct (Z.ltb_spec 0 C) as [?|_]; [lia|].
    destruct (Z.ltb_spec C 0) as [_|?]; [|lia].
    destruct (Z.ltb_spec (Z.of_nat (List.length (split (pdf_text pages)))) 0)
      as [?|_]; [lia|].
    reflexivity.
Qed.

(** X1 on a page of three words. *)
Lemma chunker_bad_size_witness :
  extract_text_from_pdf [Some "one two three"] 0 = Raise ValueError
  /\ extract_text_from_pdf [Some "one two three"] (-2) = Ok [].
Proof.
  split.
  - apply (proj1 (chunker_bad_size [Some "one two three"] 0)). reflexivity.
  - apply (proj2 (chunker_bad_size [Some "one two three"] (-2))). lia.
Defined.

(** X2.  With a positive chunk size no chunk is empty, every chunk but the
    last has exactly [C] tokens, and the last one has the words that are
    left. *)
Theorem chunk_sizes (pages : list page) (C : Z) (chunks : list string)
  (k : nat) :
  0 < C ->
  extract_text_from_pdf pages C = Ok chunks ->
  (k < List.length chunks)%nat ->
  let W := Z.of_nat (List.length (split (pdf_text pages))) in
  let tokens := Z.of_nat (List.length (split (nth k chunks ""))) in
  nth k chunks "" <> ""
  /\ 1 <= tokens <= C
  /\ ((S k < List.length chunks)%nat -> tokens = C)
  /\ (S k = List.length chunks -> tokens = W - C * Z.of_nat k).
Proof.
  intros HC Hrun Hk. cbv zeta.
  rewrite (chunker_windows pages C HC) in Hrun. injection Hrun as <-.
  set (words := split (pdf_text pages)) in *.
  set (W := Z.of_nat (List.length words)) in *.
  pose proof (ceil_bounds W C HC) as Hceil.
  assert (Hq : 0 <= (W + C - 1) / C) by (apply Z.div_pos; subst W; lia).
  set (q := (W + C - 1) / C) in *.
  rewrite length_map, length_seq in *.
  assert (Htok : split (nth k (map (fun k => join " "
                   (firstn (Z.to_nat C) (skipn (k * Z.to_nat C) words)))
                   (seq 0 (Z.to_nat q))) "")
                 = firstn (Z.to_nat C) (skipn (k * Z.to_nat C) words)).
  { rewrite (nth_indep _ "" (join " " (firstn (Z.to_nat C)
               (skipn (0 * Z.to_nat C) words))))
      by (now rewrite length_map, length_seq).
    rewrite (map_nth (fun k => join " " (firstn (Z.to_nat C)
                                (skipn (k * Z.to_nat C) words)))).
    rewrite seq_nth by assumption. simpl Nat.add.
    apply split_join.
    pose proof (split_words (pdf_text pages)) as Hw. fold words in Hw.
    rewrite <- (firstn_skipn (k * Z.to_nat C) words) in Hw.
    apply Forall_app in Hw as [_ Hw].
    rewrite <- (firstn_skipn (Z.to_nat C) (skipn (k * Z.to_nat C) words)) in Hw.
    now apply Forall_app in Hw as [Hw _]. }
  set (chunk := nth k _ "") in *.
  assert (Hlen : Z.of_nat (List.length (split chunk))
                 = Z.min C (W - C * Z.of_nat k)).
  { rewrite Htok, length_firstn, length_skipn. subst W. nia. }
  assert (Hpos : 1 <= Z.of_nat (List.length (split chunk)) <= C) by nia.
  split; [|split; [exact Hpos|split]].
  - intros Hempty. rewrite Hempty in Hpos. simpl in Hpos. lia.
  - intros Hnext. nia.
  - intros Hlast. nia.
Qed.

(** X2 on nine words in chunks of four: the last chunk has one word. *)
Lemma chunk_sizes_witness :
  0 < 4
  /\ Z.of_nat (List.length (split (nth 2 ["a b c d"; "e f g h"; "i"] ""))) = 1.
Proof.
  split; [lia|].
  refine (proj2 (proj2 (proj2
            (chunk_sizes [Some "a b c d e"; Some "f g h i"] 4
               ["a b c d"; "e f g h"; "i"] 2 _ _ _))) _);
    [lia | reflexivity | simpl; lia | reflexivity].
Defined.

(** A space between two texts keeps their words apart. *)
Lemma split_from_space (a b cur : string) :
  split_from cur (a ++ String " " b)%string = split_from cur a ++ split b.
Proof.
  revert cur. induction a as [|c a IH]; intros cur; simpl.
  - reflexivity.
  - destruct (isspace c); [|apply IH].
    now rewrite IH, app_assoc.
Qed.

(** X3.  The words of the document are the words of its pages, page after
    page: the space put between two pages never glues or cuts a word, and a
    page without text, [None] or empty, adds nothing. *)
Theorem words_of_pages (pages before after : list page) :
  split (pdf_text pages)
  = List.concat (map (fun p => split (text_or_empty p)) pages)
  /\ split (pdf_text (before ++ None :: after))
     = split (pdf_text (before ++ after))
  /\ split (pdf_text (before ++ Some "" :: after))
     = split (pdf_text (before ++ after)).
Proof.
  assert (Hwords : forall ps,
            split (pdf_text ps)
            = List.concat (map (fun p => split (text_or_empty p)) ps)).
  { induction ps as [|p ps IH]; [reflexivity|].
    destruct ps as [|p' ps].
    - simpl. now rewrite app_nil_r.
    - change (pdf_text (p :: p' :: ps))
        with (text_or_empty p ++ String " " (pdf_text (p' :: ps)))%string.
      unfold split at 1. rewrite split_from_space.
      now rewrite IH. }
  split; [apply Hwords|].
  split; rewrite !Hwords, !map_app, !concat_app; reflexivity.
Qed.

End ChunkerEdges.

(* ===================================================================== *)
(** * More on the counter                                                  *)
(* ===================================================================== *)

Section CounterFacts.

Implicit Types (c : counter) (k p : string) (xs ys : list string).

Lemma total_incr k c : total (counter_incr k c) = total c + 1.
Proof.
  unfold total. induction c as [|[k' n] c IH]; simpl; [lia|].
  destruct (String.eqb k k'); simpl; lia.
Qed.

Lemma positive_incr k c :
  Forall (fun kv => 1 <= snd kv) c ->
  Forall (fun kv => 1 <= snd kv) (counter_incr k c).
Proof.
  induction 1 as [|[k' n] c Hn Hc IH]; simpl.
  - repeat constructor. simpl. lia.
  - destruct (String.eqb k k'); constructor; simpl in *;
      try assumption; lia.
Qed.

Lemma length_incr k c :
  (List.length (counter_incr k c) <= S (List.length c))%nat.
Proof.
  induction c as [|[k' n] c IH]; simpl; [lia|].
  destruct (String.eqb k k'); simpl; lia.
Qed.

Lemma keys_incr_seen k c :
  keys (counter_incr k c)
  = if contains k (keys c) then keys c else keys c ++ [k].
Proof.
  unfold keys, contains. induction c as [|[k' n] c IH]; simpl; [reflexivity|].
  destruct (String.eqb k k'); simpl; [reflexivity|].
  rewrite IH. now destruct (existsb (String.eqb k) (map fst c)).
Qed.

Lemma fold_incr_facts xs : forall c,
  let c' := fold_left (fun c k => counter_incr k c) xs c in
  total c' = total c + Z.of_nat (List.length xs)
  /\ (Forall (fun kv => 1 <= snd kv) c -> Forall (fun kv => 1 <= snd kv) c')
  /\ (List.length c' <= List.length c + List.length xs)%nat
  /\ keys c'
     = fold_left (fun seen x => if contains x seen then seen else seen ++ [x])
         xs (keys c).
Proof.
  induction xs as [|x xs IH]; intros c; cbn zeta.
  - simpl. repeat split; auto; lia.
  - cbn [fold_left]. destruct (IH (counter_incr x c)) as (Ht & Hp & Hl & Hk).
    repeat split.
    + rewrite Ht, total_incr. simpl List.length. lia.
    + intros Hc. now apply Hp, positive_incr.
    + pose proof (length_incr x c). simpl List.length. lia.
    + now rewrite Hk, keys_incr_seen.
Qed.

Lemma filter_twice {A} (f g : A -> bool) (l : list A) :
  filter f (filter g l) = filter (fun y => g y && f y) l.
Proof.
  induction l as [|a l IH]; simpl; [reflexivity|].
  destruct (g a); simpl; [destruct (f a)|]; now rewrite IH.
Qed.

Lemma filter_true {A} (l : list A) : filter (fun _ => true) l = l.
Proof. induction l as [|a l IH]; simpl; congruence. Qed.

Lemma contains_snoc p (seen : list string) x :
  contains p (seen ++ [x]) = contains p seen || String.eqb p x.
Proof. unfold contains. rewrite existsb_app. simpl. now rewrite orb_false_r. Qed.

(** What the loop has seen, then what it has yet to see for the first
    time. *)
Lemma fold_seen xs : forall seen,
  fold_left (fun seen x => if contains x seen then seen else seen ++ [x])
    xs seen
  = seen ++ filter (fun y => negb (contains y seen)) (first_seen xs).
Proof.
  induction xs as [|x xs IH]; intros seen; simpl.
  - now rewrite app_nil_r.
  - rewrite IH. destruct (contains x seen) eqn:Hx; simpl.
    + f_equal. rewrite filter_twice. apply filter_ext_in. intros y _.
      destruct (String.eqb_spec y x) as [->|_]; simpl; [now rewrite Hx|].
      reflexivity.
    + rewrite <- app_assoc. simpl. do 2 f_equal.
      rewrite filter_twice. apply filter_ext. intros y.
      rewrite contains_snoc, negb_orb. apply andb_comm.
Qed.

(** X4.  The counts of the counter add up to the number of keywords it was
    built from, every count is at least one, and there are at most as many
    keys as keywords. *)
Theorem counter_totals xs :
  total (Counter xs) = Z.of_nat (List.length xs)
  /\ Forall (fun kv => 1 <= snd kv) (Counter xs)
  /\ (List.length (Counter xs) <= List.length xs)%nat.
Proof.
  destruct (fold_incr_facts xs []) as (Ht & Hp & Hl & _).
  unfold Counter. repeat split.
  - rewrite Ht. reflexivity.
  - apply Hp. constructor.
  - exact Hl.
Qed.

(** X5.  The keys of the counter, in the order the loop over [counts.items()]
    visits them, are the distinct keywords in the order in which each first
    appears. *)
Theorem counter_first_seen xs : keys (Counter xs) = first_seen xs.
Proof.
  destruct (fold_incr_facts xs []) as (_ & _ & _ & Hk).
  unfold Counter. rewrite Hk, fold_seen. simpl.
  clear Hk. induction (first_seen xs) as [|y l IH]; simpl; congruence.
Qed.

(** The requests of a loop over a counter name its keys. *)
Lemma lookups_of_counter xs :
  map lookup_of (Counter xs)
  = map (fun k => SearchEntities k 1) (first_seen xs).
Proof.
  destruct (fold_incr_facts xs []) as (_ & _ & _ & Hk).
  unfold Counter. rewrite fold_seen in Hk. simpl in Hk.
  rewrite filter_true in Hk.
  rewrite <- Hk. unfold keys. now rewrite map_map.
Qed.

(** X6.  The count of a phrase does not depend on the order of the keywords:
    two lists that are permutations of each other give every phrase the same
    count and have the same phrases as keys. *)
Theorem counter_order_independent xs ys p :
  Permutation xs ys ->
  counter_get (Counter xs) p = counter_get (Counter ys) p
  /\ (In p (keys (Counter xs)) <-> In p (keys (Counter ys))).
Proof.
  intros Hperm. split.
  - rewrite !Counter_get. f_equal.
    now apply (Permutation_count_occ string_dec).
  - rewrite !Counter_keys. split; apply Permutation_in;
      [exact Hperm | now apply Permutation_sym].
Qed.

(** X6 on the keywords of two chunks taken in either order. *)
Lemma counter_order_independent_witness :
  Permutation ["entity"; "graph"; "entity"] ["graph"; "entity"; "entity"]
  /\ counter_get (Counter ["entity"; "graph"; "entity"]) "entity"
     = counter_get (Counter ["graph"; "entity"; "entity"]) "entity".
Proof.
  assert (H : Permutation ["entity"; "graph"; "entity"]
                ["graph"; "entity"; "entity"]) by apply perm_swap.
  split; [exact H|].
  exact (proj1 (counter_order_independent _ _ "entity" H)).
Defined.

End CounterFacts.

(* ===================================================================== *)
(** * More on the resolver and the run                                     *)
(* ===================================================================== *)

Section ResolverFacts.

Variable net : network.

Implicit Types (log : list request) (results : list ResultRow.t)
  (items : list (string * Z)).

(** The rows a loop adds are the rows of the items it resolved, in the order
    of the items. *)
Lemma resolve_loop_added items : forall results log out log',
  NoDup (keys items) ->
  resolve_loop net items results log = (Ok out, log') ->
  exists added,
    out = results ++ added
    /\ map keyword_count added
       = filter (fun item => contains (fst item)
                               (map ResultRow.keyword added)) items.
Proof.
  induction items as [|[ent count] items IH];
    intros results log out log' Hnd Hrun.
  - cbn in Hrun. injection Hrun as <- _. exists []. now rewrite app_nil_r.
  - rewrite resolve_loop_cons in Hrun.
    unfold keys in Hnd. simpl in Hnd.
    inversion Hnd as [|? ? Hnotin Hnd']; subst.
    assert (Hother : forall K item, In item items ->
              contains (fst item) (ent :: K) = contains (fst item) K).
    { intros K [k c] Hin. unfold contains. simpl.
      destruct (String.eqb_spec k ent) as [->|_]; [|reflexivity].
      exfalso. apply Hnotin. apply in_map_iff. now exists (ent, c). }
    destruct (search_wikidata net ent 1 log) as [[[[qid lbl]|]|e] log1];
      try discriminate;
      destruct (IH _ _ _ _ Hnd' Hrun) as (added & -> & Hadded).
    + eexists (_ :: added). split; [now rewrite <- app_assoc|].
      cbn [map filter fst ResultRow.keyword].
      unfold contains at 1. simpl existsb. rewrite String.eqb_refl. simpl.
      unfold keyword_count at 1. simpl. f_equal.
      rewrite Hadded. apply filter_ext_in. intros item Hin.
      symmetry. now apply Hother.
    + exists added. split; [reflexivity|].
      cbn [filter fst].
      destruct (contains ent (map ResultRow.keyword added)) eqn:Hc;
        [|exact Hadded].
      exfalso. apply Hnotin. apply contains_In in Hc.
      apply in_map_iff in Hc as (row & Hkey & Hin).
      assert (Hkc : In (keyword_count row) (map keyword_count added))
        by now apply in_map.
      rewrite Hadded in Hkc. apply filter_In in Hkc as [Hitem _].
      apply in_map_iff. exists (keyword_count row). split; [exact Hkey|].
      exact Hitem.
Qed.

(** A loop that returns has added the rows of its items. *)
Lemma resolve_loop_rows items : forall results log out log',
  resolve_loop net items results log = (Ok out, log') ->
  out = results ++ rows_of net log items.
Proof.
  induction items as [|[ent count] items IH]; intros results log out log' Hrun.
  - cbn in Hrun. injection Hrun as <- _. now rewrite app_nil_r.
  - rewrite resolve_loop_cons in Hrun. cbn [rows_of fst].
    pose proof (search_wikidata_log net ent 1 log) as Hlog.
    unfold lookup_of at 1. cbn [fst].
    destruct (search_wikidata net ent 1 log) as [[[[qid lbl]|]|e] log1];
      cbn [fst snd] in *; subst log1; try discriminate;
      apply IH in Hrun; rewrite Hrun; cbn [row_of fst snd].
    + now rewrite <- app_assoc.
    + reflexivity.
Qed.

Lemma rows_of_app items1 : forall log items2,
  rows_of net log (items1 ++ items2)
  = rows_of net log items1
      ++ rows_of net (log ++ map lookup_of items1) items2.
Proof.
  induction items1 as [|item items1 IH]; intros log items2.
  - simpl. now rewrite app_nil_r.
  - cbn [rows_of app map]. rewrite IH, <- !app_assoc. reflexivity.
Qed.

(** Each row comes from one item, whose lookup, made after the lookups of
    the items before it, returned the row's id and label. *)
Lemma rows_of_in items : forall log row,
  In row (rows_of net log items) ->
  exists pre post,
    items = pre ++ (ResultRow.keyword row, ResultRow.count row) :: post
    /\ fst (search_wikidata net (ResultRow.keyword row) 1
              (log ++ map lookup_of pre))
       = Ok (Some (ResultRow.qid row, ResultRow.wikidata_label row)).
Proof.
  induction items as [|[ent count] items IH]; intros log row Hin;
    [destruct Hin|].
  cbn [rows_of fst] in Hin. apply in_app_or in Hin as [Hin|Hin].
  - destruct (fst (search_wikidata net ent 1 log)) as [[[qid lbl]|]|e] eqn:Hwd;
      try destruct Hin as [<-|[]]; try destruct Hin.
    exists [], items. split; [reflexivity|]. simpl. now rewrite app_nil_r.
  - destruct (IH _ _ Hin) as (pre & post & -> & Hwd).
    exists ((ent, count) :: pre), post. split; [reflexivity|].
    cbn [map]. now rewrite <- app_assoc in Hwd.
Qed.

Lemma rows_of_keys items log row :
  In row (rows_of net log items) -> In (ResultRow.keyword row) (keys items).
Proof.
  intros Hin. destruct (rows_of_in items log row Hin) as (pre & post & -> & _).
  unfold keys. rewrite map_app. apply in_or_app. right. now left.
Qed.

(** X7.  When the loop over distinct keywords returns, the table is made of
    the keywords that were resolved: a keyword whose lookup, made after the
    lookups of the keywords before it, returned a match has the row of that
    match, with its count; a keyword whose lookup returned no match has no
    row; every row is the row of such a match; and the rows come in the
    order of the keywords, at most one per keyword. *)
Theorem table_follows_keywords items log out log' :
  NoDup (keys items) ->
  resolve_loop net items [] log = (Ok out, log') ->
  (forall pre ent count post qid label,
     items = pre ++ (ent, count) :: post ->
     fst (search_wikidata net ent 1 (log ++ map lookup_of pre))
     = Ok (Some (qid, label)) ->
     In {| ResultRow.keyword := ent;
           ResultRow.count := count;
           ResultRow.wikidata_label := label;
           ResultRow.qid := qid |} out)
  /\ (forall pre ent count post,
        items = pre ++ (ent, count) :: post ->
        fst (search_wikidata net ent 1 (log ++ map lookup_of pre)) = Ok None ->
        ~ In ent (map ResultRow.keyword out))
  /\ (forall row,
        In row out ->
        exists pre post,
          items = pre ++ (ResultRow.keyword row, ResultRow.count row) :: post
          /\ fst (search_wikidata net (ResultRow.keyword row) 1
                    (log ++ map lookup_of pre))
             = Ok (Some (ResultRow.qid row, ResultRow.wikidata_label row)))
  /\ map keyword_count out
     = filter (fun item => contains (fst item) (map ResultRow.keyword out))
         items
  /\ (List.length out <= List.length items)%nat.
Proof.
  intros Hnd Hrun.
  pose proof (resolve_loop_rows items [] log out log' Hrun) as Hout.
  simpl in Hout.
  destruct (resolve_loop_added items [] log out log' Hnd Hrun)
    as (added & Hadd & Hadded). simpl in Hadd. subst added.
  split; [|split; [|split; [|split]]].
  - intros pre ent count post qid label -> Hwd.
    rewrite Hout, rows_of_app. apply in_or_app. right.
    cbn [rows_of fst]. rewrite Hwd. now left.
  - intros pre ent count post -> Hwd Hin.
    unfold keys in Hnd. rewrite map_app in Hnd. simpl in Hnd.
    apply NoDup_remove_2 in Hnd. apply Hnd.
    apply in_map_iff in Hin as (row & <- & Hin).
    rewrite Hout, rows_of_app in Hin. cbn [rows_of fst] in Hin.
    rewrite Hwd in Hin. simpl in Hin.
    apply in_or_app. apply in_app_or in Hin as [Hin|Hin].
    + left. exact (rows_of_keys _ _ _ Hin).
    + right. exact (rows_of_keys _ _ _ Hin).
  - intros row Hin. rewrite Hout in Hin. now apply rows_of_in.
  - exact Hadded.
  - rewrite <- (length_map keyword_count), Hadded. apply filter_length_le.
Qed.

(** X8.  Three answers the resolver does not handle: a transport error of the
    request is raised as it is; a body that parses to something that is not
    an object raises [AttributeError]; a first match without "id" or without
    "label" raises [KeyError]. *)
Theorem resolver_unhandled_errors (query : string) (limit : Z) log :
  (forall e,
     net log (SearchEntities query limit) = Raise e ->
     search_wikidata net query limit log
     = (Raise e, log ++ [SearchEntities query limit]))
  /\ (forall r data,
        net log (SearchEntities query limit) = Ok r ->
        status_code r = 200 ->
        json r = Some data ->
        (forall d, data <> PDict d) ->
        search_wikidata net query limit log
        = (Raise AttributeError, log ++ [SearchEntities query limit]))
  /\ (forall r d m ms,
        net log (SearchEntities query limit) = Ok r ->
        status_code r = 200 ->
        json r = Some (PDict d) ->
        assoc "search" d = Some (PList (PDict m :: ms)) ->
        assoc "id" m = None \/ assoc "label" m = None ->
        search_wikidata net query limit log
        = (Raise KeyError, log ++ [SearchEntities query limit])).
Proof.
  repeat split.
  - intros e Hnet. unfold search_wikidata, io_bind, requests_get.
    now rewrite Hnet.
  - intros r data Hnet H200 Hjson Hshape.
    unfold search_wikidata, io_bind, requests_get, lift.
    rewrite Hnet, H200. unfold r_json. rewrite Hjson. simpl.
    destruct data; try reflexivity. now elim (Hshape d).
  - intros r d m ms Hnet H200 Hjson Hsearch Hmissing.
    unfold search_wikidata, io_bind, requests_get, lift.
    rewrite Hnet, H200. unfold r_json. rewrite Hjson. simpl.
    rewrite Hsearch. simpl.
    destruct Hmissing as [Hid|Hlabel].
    + now rewrite Hid.
    + rewrite Hlabel. now destruct (assoc "id" m).
Qed.

(** X9.  A lookup that raises ends the loop at once: the error is the result
    of the loop, the rows resolved before are dropped and no later keyword
    is looked up.  A run whose loop raises raises the same error, and the
    script leaves the session as it was. *)
Theorem lookup_error_aborts_run (kw_model : keybert) (pages : list page)
  (st : session_state) (chunks : list string)
  (pre post : list (string * Z)) (ent : string) (count : Z)
  results log (e : exn) :
  extract_text_from_pdf pages 500 = Ok chunks ->
  Counter (collect_keywords kw_model chunks) = pre ++ (ent, count) :: post ->
  resolve_loop net pre [] log = (Ok results, log ++ map lookup_of pre) ->
  fst (search_wikidata net ent 1 (log ++ map lookup_of pre)) = Raise e ->
  let log' := log ++ map lookup_of pre ++ [SearchEntities ent 1] in
  resolve_loop net (pre ++ (ent, count) :: post) [] log = (Raise e, log')
  /\ processing_run kw_model net pages st log = (Raise e, log')
  /\ handle kw_model net (Some pages) StartProcessing st log
     = (st, Raise e, log').
Proof.
  intros Hchunks Hitems Hpre Hsearch log'.
  assert (Hloop : resolve_loop net (pre ++ (ent, count) :: post) [] log
                  = (Raise e, log')).
  { rewrite resolve_loop_app, Hpre, resolve_loop_cons.
    pose proof (search_wikidata_log net ent 1 (log ++ map lookup_of pre))
      as Hlog.
    destruct (search_wikidata net ent 1 (log ++ map lookup_of pre))
      as [[wd|e'] log1]; simpl in Hsearch, Hlog; [discriminate|].
    injection Hsearch as ->. subst log1 log'. now rewrite <- app_assoc. }
  assert (Hrun : processing_run kw_model net pages st log = (Raise e, log')).
  { unfold processing_run, io_bind, lift. rewrite Hchunks.
    destruct (collect_keywords kw_model chunks) as [|k ks] eqn:Hkw.
    - cbv in Hitems. destruct pre; discriminate.
    - cbn [nonempty]. now rewrite Hitems, Hloop. }
  split; [exact Hloop|]. split; [exact Hrun|].
  unfold handle, script. now rewrite Hrun.
Qed.

(** X15.  A run that returns has sent one search request, of limit 1, for
    each distinct keyword, in the order in which the keywords first appear,
    and nothing else: a keyword found in several chunks is looked up
    once. *)
Theorem run_requests (kw_model : keybert) (pages : list page)
  (st st' : session_state) (chunks : list string) (shown : list element)
  log log' :
  extract_text_from_pdf pages 500 = Ok chunks ->
  processing_run kw_model net pages st log = (Ok (st', shown), log') ->
  log' = log ++ map (fun k => SearchEntities k 1)
                  (first_seen (collect_keywords kw_model chunks)).
Proof.
  intros Hchunks Hrun.
  unfold processing_run, io_bind, lift, ret in Hrun. rewrite Hchunks in Hrun.
  destruct (collect_keywords kw_model chunks) as [|k ks] eqn:Hkw.
  - cbn in Hrun. injection Hrun as _ _ <-. now rewrite app_nil_r.
  - cbn [nonempty] in Hrun. rewrite <- lookups_of_counter.
    destruct (resolve_loop net (Counter (k :: ks)) [] log)
      as [[rs|e] log1] eqn:Hloop; [|discriminate].
    apply resolve_loop_log in Hloop. subst log1.
    destruct (nonempty rs); now injection Hrun as _ _ <-.
Qed.

(** X16.  For a document without any word the run asks the model nothing and
    the network nothing: it reports zero chunks and no keyword, and returns
    the session it was given. *)
Theorem empty_document_run (kw_model : keybert) (pages : list page)
  (st : session_state) log :
  split (pdf_text pages) = [] ->
  extract_text_from_pdf pages 500 = Ok []
  /\ processing_run kw_model net pages st log
     = (Ok (st, [Notice Processing; Notice (ChunksExtracted 0);
                 Notice NoKeywords]), log).
Proof.
  intros Hempty.
  assert (Hchunks : extract_text_from_pdf pages 500 = Ok []).
  { rewrite chunker_windows by lia. now rewrite Hempty. }
  split; [exact Hchunks|].
  unfold processing_run, io_bind, lift. now rewrite Hchunks.
Qed.

End ResolverFacts.

(** X7 on three keywords, the service being down for the second: the first
    keyword, resolved to Q937, has its row. *)
Lemma table_follows_keywords_witness :
  NoDup (keys [("albert einstein", 2); ("xyzzy", 1); ("relativity", 1)])
  /\ In (Sample.einstein_row_of "albert einstein" 2)
       [Sample.einstein_row_of "albert einstein" 2;
        Sample.einstein_row_of "relativity" 1]
  /\ map keyword_count
       [Sample.einstein_row_of "albert einstein" 2;
        Sample.einstein_row_of "relativity" 1]
     = [("albert einstein", 2); ("relativity", 1)].
Proof.
  assert (Hnd : NoDup (keys [("albert einstein", 2); ("xyzzy", 1);
                             ("relativity", 1)])).
  { repeat constructor; simpl; intuition discriminate. }
  split; [exact Hnd|].
  destruct (table_follows_keywords Sample.flaky_net
              [("albert einstein", 2); ("xyzzy", 1); ("relativity", 1)]
              []
              [Sample.einstein_row_of "albert einstein" 2;
               Sample.einstein_row_of "relativity" 1]
              [SearchEntities "albert einstein" 1;
               SearchEntities "xyzzy" 1;
               SearchEntities "relativity" 1]
              Hnd eq_refl)
    as (Hrow & _ & _ & Horder & _).
  split; [|exact Horder].
  exact (Hrow [] "albert einstein" 2
           [("xyzzy", 1); ("relativity", 1)]
           (PStr "Q937") (PStr "Albert Einstein") eq_refl eq_refl).
Defined.

(** X8 on a first match that has an id and no label. *)
Lemma resolver_unhandled_errors_witness :
  search_wikidata Sample.unlabelled_net "xyzzy" 1 []
  = (Raise KeyError, [SearchEntities "xyzzy" 1]).
Proof.
  refine (proj2 (proj2 (resolver_unhandled_errors Sample.unlabelled_net
                          "xyzzy" 1 []))
            Sample.unlabelled_match _ _ _ _ _ _ _ _);
    [reflexivity | reflexivity | reflexivity | reflexivity
     | right; reflexivity].
Defined.

(** X9 on two keywords, the second having a first match without label: the
    run raises in the detail view of Q937, which stays. *)
Lemma lookup_error_aborts_run_witness :
  handle Sample.two_phrases Sample.unlabelled_net
    (Some [Some "Einstein and xyzzy"]) StartProcessing Sample.in_detail []
  = (Sample.in_detail, Raise KeyError,
     [SearchEntities "einstein" 1; SearchEntities "xyzzy" 1]).
Proof.
  refine (proj2 (proj2
            (lookup_error_aborts_run Sample.unlabelled_net Sample.two_phrases
               [Some "Einstein and xyzzy"] Sample.in_detail
               ["Einstein and xyzzy"] [("einstein", 1)] [] "xyzzy" 1
               [Sample.einstein_row_of "einstein" 1] [] KeyError
               _ _ _ _)));
    reflexivity.
Defined.

(** X15 on a model that finds the same two phrases in every chunk. *)
Lemma run_requests_witness :
  extract_text_from_pdf [Some "Einstein and xyzzy"] 500
  = Ok ["Einstein and xyzzy"]
  /\ snd (processing_run Sample.two_phrases Sample.flaky_net
            [Some "Einstein and xyzzy"] Sample.in_detail [])
     = [SearchEntities "einstein" 1; SearchEntities "xyzzy" 1].
Proof.
  split; [reflexivity|].
  exact (run_requests Sample.flaky_net Sample.two_phrases
           [Some "Einstein and xyzzy"] Sample.in_detail
           {| selected_qid := PNone;
              results := [Sample.einstein_row_of "einstein" 1] |}
           ["Einstein and xyzzy"] _ [] _ eq_refl eq_refl).
Defined.

(** X16 on a document of two pages without text. *)
Lemma empty_document_run_witness :
  split (pdf_text [None; Some "  "]) = []
  /\ processing_run Sample.one_phrase Sample.einstein_net [None; Some "  "]
       Sample.in_detail []
     = (Ok (Sample.in_detail,
            [Notice Processing; Notice (ChunksExtracted 0);
             Notice NoKeywords]), []).
Proof.
  split; [reflexivity|].
  exact (proj2 (empty_document_run Sample.einstein_net Sample.one_phrase
                  [None; Some "  "] Sample.in_detail [] eq_refl)).
Defined.

(* ===================================================================== *)
(** * More on the statement fetcher                                        *)
(* ===================================================================== *)

Section FetcherFacts.

(** X10.  The fetcher never looks at the status of the answer: two answers
    with the same body give the same rows, or the same error, whatever their
    status codes. *)
Theorem fetcher_ignores_status (net net' : network) (qid : pyval)
  (lang : string) (log : list request) (r r' : response) :
  net log (Sparql qid lang) = Ok r ->
  net' log (Sparql qid lang) = Ok r' ->
  json r = json r' ->
  get_all_statements net qid lang log = get_all_statements net' qid lang log.
Proof.
  intros Hnet Hnet' Hjson.
  unfold get_all_statements, io_bind, requests_get, lift, r_json.
  now rewrite Hnet, Hnet', Hjson.
Qed.

(** X10 on an empty result sent with status 200 and with status 500. *)
Lemma fetcher_ignores_status_witness :
  status_code Sample.no_statements <> status_code Sample.no_statements_500
  /\ get_all_statements Sample.bare_net (PStr "Q937") "en" []
     = get_all_statements (fun _ _ => Ok Sample.no_statements_500)
         (PStr "Q937") "en" [].
Proof.
  split; [discriminate|].
  apply (fetcher_ignores_status Sample.bare_net
           (fun _ _ => Ok Sample.no_statements_500) (PStr "Q937") "en" []
           Sample.no_statements Sample.no_statements_500);
    reflexivity.
Defined.

(** X11.  The rows come one per binding, in the order of the bindings: the
    loop returns a list of rows exactly when each binding flattens to the
    row at its place; and one binding that cannot be flattened makes the
    whole loop raise, so no partial table is returned. *)
Theorem rows_follow_bindings (bs : list pyval) :
  (forall rows,
     statement_rows bs = Ok rows
     <-> Forall2 (fun b row => statement_row b = Ok row) bs rows)
  /\ (forall b e,
        In b bs -> statement_row b = Raise e ->
        exists e', statement_rows bs = Raise e').
Proof.
  split.
  - induction bs as [|b bs IH]; intros rows.
    + cbn. split.
      * intros [= <-]. constructor.
      * intros H. inversion H. reflexivity.
    + rewrite statement_rows_cons. split.
      * destruct (statement_row b) as [row|e] eqn:Hb; [|discriminate].
        destruct (statement_rows bs) as [rows'|e] eqn:Hbs; [|discriminate].
        intros [= <-]. constructor; [exact Hb|]. now apply IH.
      * intros H. inversion H as [|? row ? rows' Hb Hrest]; subst.
        rewrite Hb. apply IH in Hrest. now rewrite Hrest.
  - induction bs as [|b' bs IH]; intros b e Hin Hb; [destruct Hin|].
    rewrite statement_rows_cons. destruct Hin as [->|Hin].
    + rewrite Hb. now exists e.
    + destruct (statement_row b'); [|eauto].
      destruct (IH b e Hin Hb) as (e' & ->). now exists e'.
Qed.

(** X11 on a good binding followed by a string. *)
Lemma rows_follow_bindings_witness :
  statement_row (PStr "oops") = Raise AttributeError
  /\ exists e',
       statement_rows [PDict Sample.plain_binding; PStr "oops"] = Raise e'.
Proof.
  split; [reflexivity|].
  apply (proj2 (rows_follow_bindings
                  [PDict Sample.plain_binding; PStr "oops"])
           (PStr "oops") AttributeError);
    [right; left; reflexivity | reflexivity].
Defined.

Lemma split_sep_app (sep : ascii) (a b : string) :
  split_sep sep (a ++ String sep b)%string
  = split_sep sep a ++ split_sep sep b.
Proof.
  induction a as [|c a IH]; simpl.
  - now rewrite Ascii.eqb_refl.
  - destruct (Ascii.eqb c sep); [now rewrite IH|].
    rewrite IH. pose proof (split_sep_nonempty sep a) as Hne.
    destruct (split_sep sep a); [congruence | reflexivity].
Qed.

Lemma split_sep_noslash (w : string) :
  noslash w = true -> split_sep "/" w = [w].
Proof.
  induction w as [|c w IH]; simpl; [reflexivity|].
  intros H. apply andb_prop in H as [Hc Hw].
  apply negb_true_iff in Hc. rewrite Hc. now rewrite IH.
Qed.

(** X12.  The property id is what follows the last slash of the property
    URI: for a URI that ends in a slash and a name without slash it is that
    name, also when the name is empty (an empty string then, not [None]);
    for a non-empty URI without any slash it is the whole URI. *)
Theorem property_id_of_uri (prefix name : string) :
  noslash name = true ->
  prop_code_of (PStr (prefix ++ String "/" name)) = Ok (PStr name)
  /\ (name <> "" -> prop_code_of (PStr name) = Ok (PStr name)).
Proof.
  intros Hname. split.
  - rewrite prop_code_of_str. unfold last_segment.
    destruct (String.eqb_spec (prefix ++ String "/" name) "") as [Hempty|_].
    + destruct prefix; discriminate.
    + rewrite split_sep_app, (split_sep_noslash name Hname).
      now rewrite last_last.
  - intros Hne. rewrite prop_code_of_str. unfold last_segment.
    destruct (String.eqb_spec name "") as [?|_]; [contradiction|].
    now rewrite (split_sep_noslash name Hname).
Qed.

(** X12 on the URI of P31 and on a URI that ends in a slash. *)
Lemma property_id_of_uri_witness :
  prop_code_of (PStr "http://www.wikidata.org/entity/P31") = Ok (PStr "P31")
  /\ prop_code_of (PStr "http://www.wikidata.org/entity/") = Ok (PStr "").
Proof.
  split.
  - exact (proj1 (property_id_of_uri "http://www.wikidata.org/entity" "P31"
                    eq_refl)).
  - exact (proj1 (property_id_of_uri "http://www.wikidata.org/entity" ""
                    eq_refl)).
Defined.

End FetcherFacts.

(* ===================================================================== *)
(** * More on the controller                                               *)
(* ===================================================================== *)

Section ControllerFacts.

Variables (kw_model : keybert) (net : network).

(** The fetcher sends its one request, whatever comes back. *)
Lemma get_all_statements_log (qid : pyval) (lang : string)
  (log : list request) :
  snd (get_all_statements net qid lang log) = log ++ [Sparql qid lang].
Proof.
  unfold get_all_statements, io_bind, requests_get, lift.
  destruct (net log _); reflexivity.
Qed.

(** X14.  Drawing the page asks the network nothing on the results screen
    and when nothing is stored; in the detail view it sends one statement
    query, for the selected entity and in English, each time the page is
    drawn. *)
Theorem render_requests (st : session_state) (log : list request) :
  snd (render net st log)
  = if shows_detail st then log ++ [Sparql (selected_qid st) "en"] else log.
Proof.
  unfold render, io_bind, ret.
  destruct (shows_detail st); [|reflexivity].
  pose proof (get_all_statements_log (selected_qid st) "en" log) as Hlog.
  destruct (get_all_statements net (selected_qid st) "en" log) as [[props|e] l];
    exact Hlog.
Qed.

(** The session a run returns is the old one or a fresh table without
    selection. *)
Lemma processing_run_outcome (pages : list page) (st st' : session_state)
  (shown : list element) (log log' : list request) :
  processing_run kw_model net pages st log = (Ok (st', shown), log') ->
  st' = st \/ (selected_qid st' = PNone /\ results st' <> []).
Proof.
  unfold processing_run, io_bind, lift, ret.
  destruct (extract_text_from_pdf pages 500) as [chunks|e]; [|discriminate].
  destruct (nonempty (collect_keywords kw_model chunks)).
  - destruct (resolve_loop net _ [] log) as [[rs|e] log1]; [|discriminate].
    destruct rs as [|row rs]; cbn [nonempty]; intros [= <- _ _].
    + now left.
    + right. split; [reflexivity | discriminate].
  - intros [= <- _ _]. now left.
Qed.

Lemma script_outcome (uploaded_file : option (list page)) (start : bool)
  (st : session_state) (log : list request) :
  let st' := fst (fst (script kw_model net uploaded_file start st log)) in
  st' = st \/ (selected_qid st' = PNone /\ results st' <> []).
Proof.
  unfold script.
  assert (Hskip : forall l : list request,
            fst (fst (match ret (st, @nil element) l with
                      | (Raise e, log1) => (st, Raise e, log1)
                      | (Ok (st1, shown), log1) =>
                          match render net st1 log1 with
                          | (Raise e, log2) => (st1, Raise e, log2)
                          | (Ok page, log2) => (st1, Ok (shown ++ page), log2)
                          end
                      end)) = st).
  { intros l. unfold ret. now destruct (render net st l) as [[page|e] l2]. }
  destruct uploaded_file as [pages|]; [destruct start|];
    try (left; apply Hskip).
  destruct (processing_run kw_model net pages st log)
    as [[[st1 shown]|e] log1] eqn:Hrun; cbn zeta.
  - apply processing_run_outcome in Hrun.
    destruct (render net st1 log1) as [[page|e] log2]; exact Hrun.
  - now left.
Qed.

(** X13.  No action empties the stored table: once results are stored, the
    session holds a non-empty table after every start of a run, every
    inspection and every return, also when the run finds nothing or
    raises. *)
Theorem stored_results_stay (uploaded_file : option (list page)) (a : action)
  (st : session_state) (log : list request) :
  results st <> [] ->
  results (fst (fst (handle kw_model net uploaded_file a st log))) <> [].
Proof.
  intros Hres. destruct a as [|qid|].
  - unfold handle.
    destruct (script_outcome uploaded_file true st log) as [->|[_ H]];
      assumption.
  - now rewrite handle_query_props.
  - now rewrite handle_back.
Qed.

(** In a session a user can get to, nothing is selected while nothing is
    stored: the "Query props" buttons come with the table. *)
Lemma reachable_empty_no_selection (st : session_state)
  (log : list request) :
  reachable kw_model net st log ->
  results st = [] -> selected_qid st = PNone.
Proof.
  induction 1 as [|st log uploaded_file a Hreach IH Hoffered].
  - reflexivity.
  - destruct a as [|qid|].
    + unfold handle.
      destruct (script_outcome uploaded_file true st log) as [->|[Hsel _]];
        [exact IH | intros _; exact Hsel].
    + rewrite handle_query_props. cbn [results select_qid].
      cbn [offered] in Hoffered. unfold shows_matches in Hoffered.
      apply andb_prop in Hoffered as [Hres _].
      intros Hempty. rewrite Hempty in Hres. discriminate.
    + rewrite handle_back. reflexivity.
Qed.



(** X17.  In a session a user can get to, the page is blank exactly when no
    results are stored, and then nothing is selected: once a run has stored
    a table, every later page shows the table or the detail view, and a
    selection never exists without a stored table. *)
Theorem blank_only_without_results (st : session_state)
  (log : list request) :
  reachable kw_model net st log ->
  (screen_of st = BLANK <-> results st = [])
  /\ (results st = [] -> selected_qid st = PNone).
Proof.
  intros Hreach.
  pose proof (reachable_empty_no_selection _ _ Hreach) as Hinv.
  split; [|exact Hinv].
  unfold screen_of, shows_matches, shows_detail.
  destruct (results st) as [|row rows] eqn:Hres.
  - rewrite (Hinv eq_refl). simpl. tauto.
  - simpl. destruct (truthy (selected_qid st)); simpl;
      split; intros H; discriminate.
Qed.

End ControllerFacts.

(** X13 in the detail view of Q937, with a service that finds nothing. *)
Lemma stored_results_stay_witness :
  results Sample.in_detail <> []
  /\ results (fst (fst (handle Sample.one_phrase Sample.empty_net
                          (Some [Some "Albert Einstein"]) StartProcessing
                          Sample.in_detail [])))
     <> [].
Proof.
  assert (H : results Sample.in_detail <> []) by discriminate.
  split; [exact H|].
  exact (stored_results_stay Sample.one_phrase Sample.empty_net
           (Some [Some "Albert Einstein"]) StartProcessing
           Sample.in_detail [] H).
Defined.



(** X17 after a run that resolved a keyword: results are stored and the
    page is not blank. *)
Lemma blank_only_without_results_witness :
  exists st log,
    reachable Sample.one_phrase Sample.einstein_net st log
    /\ results st <> []
    /\ (screen_of st = BLANK <-> results st = []).
Proof.
  pose (h1 := handle Sample.one_phrase Sample.einstein_net
                (Some [Some "Albert Einstein"]) StartProcessing
                initial_session []).
  assert (R1 : reachable Sample.one_phrase Sample.einstein_net
                 (fst (fst h1)) (snd h1)).
  { apply reach_action; [apply reach_fresh | discriminate]. }
  exists (fst (fst h1)), (snd h1).
  split; [exact R1|]. split; [discriminate|].
  exact (proj1 (blank_only_without_results Sample.one_phrase
                  Sample.einstein_net _ _ R1)).
Defined.
